(** * Hedgewars scheme editor page (QTfrontend/pagescheme.cpp)

    A shallow embedding of [PageScheme]: the widgets its constructor
    creates, the column bindings of [setModel], the three row operations
    [newRow], [copyRow], [deleteRow] and the lock logic of
    [schemeSelected], over a table of scheme rows. *)

From Stdlib Require Import ZArith Bool Lia.
From stdpp Require Import base list strings.

Local Open Scope Z_scope.

(** ** Values and rows *)

(** A cell of the table model: the scheme name, a game-modifier flag or a
    numeric setting. *)
Inductive QVariant :=
  | VString (s : string)
  | VBool (b : bool)
  | VInt (n : Z).

#[global] Instance QVariant_eq_dec : EqDecision QVariant.
Proof. solve_decision. Defined.

(** One scheme is one row of cells, addressed by column number. *)
Abbreviation Scheme := (list QVariant).

(** ** The widgets of the page *)

(** The [ToggleButtonWidget]s the constructor creates inside [gbGameModes],
    in creation order. *)
Inductive ToggleButton :=
  | TBW_mode_Forts | TBW_teamsDivide | TBW_solid | TBW_border
  | TBW_lowGravity | TBW_laserSight | TBW_invulnerable | TBW_resethealth
  | TBW_vampiric | TBW_karma | TBW_artillery | TBW_randomorder
  | TBW_king | TBW_placehog | TBW_sharedammo | TBW_disablegirders
  | TBW_disablelandobjects | TBW_aisurvival | TBW_infattack | TBW_resetweps
  | TBW_perhogammo | TBW_nowind | TBW_morewind | TBW_tagteam.

(** The spin boxes the constructor creates inside [gbBasicSettings], in
    creation order. *)
Inductive SpinBox :=
  | SB_DamageModifier | SB_TurnTime | SB_InitHealth | SB_SuddenDeath
  | SB_WaterRise | SB_HealthDecrease | SB_RopeModifier | SB_CaseProb
  | SB_HealthCrates | SB_CrateHealth | SB_MinesTime | SB_Mines
  | SB_MineDuds | SB_Explosives | SB_GetAwayTime.

Inductive Widget :=
  | LE_name
  | TBW (t : ToggleButton)
  | SB (s : SpinBox).

#[global] Instance ToggleButton_eq_dec : EqDecision ToggleButton.
Proof. solve_decision. Defined.
#[global] Instance SpinBox_eq_dec : EqDecision SpinBox.
Proof. solve_decision. Defined.
#[global] Instance Widget_eq_dec : EqDecision Widget.
Proof. solve_decision. Defined.

Definition toggleButtons : list ToggleButton :=
  [ TBW_mode_Forts; TBW_teamsDivide; TBW_solid; TBW_border;
    TBW_lowGravity; TBW_laserSight; TBW_invulnerable; TBW_resethealth;
    TBW_vampiric; TBW_karma; TBW_artillery; TBW_randomorder;
    TBW_king; TBW_placehog; TBW_sharedammo; TBW_disablegirders;
    TBW_disablelandobjects; TBW_aisurvival; TBW_infattack; TBW_resetweps;
    TBW_perhogammo; TBW_nowind; TBW_morewind; TBW_tagteam ].

Definition spinBoxes : list SpinBox :=
  [ SB_DamageModifier; SB_TurnTime; SB_InitHealth; SB_SuddenDeath;
    SB_WaterRise; SB_HealthDecrease; SB_RopeModifier; SB_CaseProb;
    SB_HealthCrates; SB_CrateHealth; SB_MinesTime; SB_Mines;
    SB_MineDuds; SB_Explosives; SB_GetAwayTime ].

(** ** QSpinBox *)

Module QSpinBox.

Record t := mk {
  minimum : Z;
  maximum : Z;
  value : Z;
  singleStep : Z
}.

(** A fresh spin box: range 0..99, value 0, step 1. *)
Definition new : t :=
  {| minimum := 0; maximum := 99; value := 0; singleStep := 1 |}.

(** qBound(min, v, max) *)
Definition bound (mn mx v : Z) : Z := Z.max mn (Z.min mx v).

Definition setRange (mn mx : Z) (sb : t) : t :=
  let mx' := Z.max mn mx in
  {| minimum := mn; maximum := mx';
     value := bound mn mx' (value sb);
     singleStep := singleStep sb |}.

Definition setValue (v : Z) (sb : t) : t :=
  {| minimum := minimum sb; maximum := maximum sb;
     value := bound (minimum sb) (maximum sb) v;
     singleStep := singleStep sb |}.

Definition setSingleStep (s : Z) (sb : t) : t :=
  if 0 <=? s
  then {| minimum := minimum sb; maximum := maximum sb;
          value := value sb; singleStep := s |}
  else sb.

(** One press of the up (n = 1) or down (n = -1) arrow, or n wheel
    notches. *)
Definition stepBy (n : Z) (sb : t) : t :=
  setValue (value sb + n * singleStep sb) sb.

(** Whether a value sits on the grid minimum, minimum + step, ... *)
Definition onStepGrid (sb : t) (v : Z) : bool :=
  if singleStep sb =? 0 then v =? minimum sb
  else (v - minimum sb) mod singleStep sb =? 0.

End QSpinBox.

(** The configuration each spin box receives in the constructor
    (pagescheme.cpp lines 175-376): setRange, then setValue, then
    setSingleStep. [SB_CaseProb] gets no setSingleStep call. *)
Definition construct (s : SpinBox) : QSpinBox.t :=
  let cfg mn mx v st :=
    QSpinBox.setSingleStep st
      (QSpinBox.setValue v (QSpinBox.setRange mn mx QSpinBox.new)) in
  match s with
  | SB_DamageModifier => cfg 10 300 100 25
  | SB_TurnTime => cfg 1 9999 45 15
  | SB_InitHealth => cfg 50 200 100 25
  | SB_SuddenDeath => cfg 0 50 15 3
  | SB_WaterRise => cfg 0 100 47 5
  | SB_HealthDecrease => cfg 0 100 5 1
  | SB_RopeModifier => cfg 25 999 100 25
  | SB_CaseProb =>
      QSpinBox.setValue 5 (QSpinBox.setRange 0 9 QSpinBox.new)
  | SB_HealthCrates => cfg 0 100 35 5
  | SB_CrateHealth => cfg 0 200 25 5
  | SB_MinesTime => cfg (-1) 5 3 1
  | SB_Mines => cfg 0 80 0 5
  | SB_MineDuds => cfg 0 100 0 5
  | SB_Explosives => cfg 0 40 0 1
  | SB_GetAwayTime => cfg 0 999 100 25
  end.

(** The parameter table as the specification documents it, one entry per
    numeric field: (min, max, step, default). It is compared with
    [construct] below. *)
Record Documented := documented {
  doc_min : Z; doc_max : Z; doc_step : Z; doc_default : Z
}.

Definition spec_table (s : SpinBox) : Documented :=
  match s with
  | SB_DamageModifier => documented 10 300 25 100
  | SB_TurnTime => documented 1 9999 15 45
  | SB_InitHealth => documented 50 200 25 100
  | SB_SuddenDeath => documented 0 50 3 15
  | SB_WaterRise => documented 0 100 5 47
  | SB_HealthDecrease => documented 0 100 1 5
  | SB_RopeModifier => documented 25 999 25 100
  | SB_CaseProb => documented 0 9 1 5
  | SB_HealthCrates => documented 0 100 5 35
  | SB_CrateHealth => documented 0 200 5 25
  | SB_MinesTime => documented (-1) 5 1 3
  | SB_Mines => documented 0 80 5 0
  | SB_MineDuds => documented 0 100 5 0
  | SB_Explosives => documented 0 40 1 0
  | SB_GetAwayTime => documented 0 999 25 100
  end.

(** ** QDataWidgetMapper bindings *)

(** addMapping(widget, section): a widget has at most one section; a
    second call for the same widget replaces the first. *)
Definition addMapping (w : Widget) (section : Z)
    (ms : list (Widget * Z)) : list (Widget * Z) :=
  filter (λ m, m.1 ≠ w) ms ++ [(w, section)].

(** The forty addMapping calls of [setModel], in source order. *)
Definition mappingCalls : list (Widget * Z) :=
  [ (LE_name, 0);
    (TBW TBW_mode_Forts, 1); (TBW TBW_teamsDivide, 2); (TBW TBW_solid, 3);
    (TBW TBW_border, 4); (TBW TBW_lowGravity, 5); (TBW TBW_laserSight, 6);
    (TBW TBW_invulnerable, 7); (TBW TBW_resethealth, 8);
    (TBW TBW_vampiric, 9); (TBW TBW_karma, 10); (TBW TBW_artillery, 11);
    (TBW TBW_randomorder, 12); (TBW TBW_king, 13); (TBW TBW_placehog, 14);
    (TBW TBW_sharedammo, 15); (TBW TBW_disablegirders, 16);
    (TBW TBW_disablelandobjects, 17); (TBW TBW_aisurvival, 18);
    (TBW TBW_infattack, 19); (TBW TBW_resetweps, 20);
    (TBW TBW_perhogammo, 21); (TBW TBW_nowind, 22); (TBW TBW_morewind, 23);
    (TBW TBW_tagteam, 24);
    (SB SB_DamageModifier, 25); (SB SB_TurnTime, 26); (SB SB_InitHealth, 27);
    (SB SB_SuddenDeath, 28); (SB SB_CaseProb, 29); (SB SB_MinesTime, 30);
    (SB SB_Mines, 31); (SB SB_MineDuds, 32); (SB SB_Explosives, 33);
    (SB SB_HealthCrates, 34); (SB SB_CrateHealth, 35);
    (SB SB_WaterRise, 36); (SB SB_HealthDecrease, 37);
    (SB SB_RopeModifier, 38); (SB SB_GetAwayTime, 39) ].

Definition mappings : list (Widget * Z) :=
  fold_left (λ ms c, addMapping c.1 c.2 ms) mappingCalls [].

(** The section a widget is bound to. *)
Definition mappedSection (w : Widget) : option Z :=
  (λ m : Widget * Z, m.2) <$> head (filter (λ m, m.1 = w) mappings).

Definition isToggle (w : Widget) : bool :=
  match w with TBW _ => true | _ => false end.

(** The bindings of the flag controls, in binding order. *)
Definition flagMappings : list (Widget * Z) :=
  filter (λ m, isToggle m.1 = true) mappings.

Definition isSpin (w : Widget) : bool :=
  match w with SB _ => true | _ => false end.

Definition spinMappings : list (Widget * Z) :=
  filter (λ m, isSpin m.1 = true) mappings.

(** The widget bound to a section. *)
Definition widgetOfSection (col : Z) : option Widget :=
  (λ m : Widget * Z, m.1) <$> head (filter (λ m, m.2 = col) mappings).

#[global] Arguments mappings : simpl never.
#[global] Arguments mappedSection : simpl never.
#[global] Arguments widgetOfSection : simpl never.
#[global] Arguments flagMappings : simpl never.
#[global] Arguments spinMappings : simpl never.

(** ** The table model behind the page *)

Module AmmoSchemeModel.

(** Modelled from the spec: the state of AmmoSchemeModel, whose code
    (ammoSchemeModel.h/.cpp) is not part of the sources: the ordered
    table of schemes and [numberOfDefaultSchemes], the number of leading
    rows that are built-in. The page reaches the model through
    [mapper->model()]; it reads [numberOfDefaultSchemes] and
    [rowCount()] and calls [insertRow], [removeRow] and, through the
    mapper, [setData]. The default name and the default state of each
    toggle are documented nowhere and are carried as data of the
    model. *)
Record t := mk {
  schemes : list Scheme;
  numberOfDefaultSchemes : Z;
  defaultName : string;
  defaultFlag : ToggleButton → bool
}.

Definition with_schemes (rows : list Scheme) (m : t) : t :=
  {| schemes := rows;
     numberOfDefaultSchemes := numberOfDefaultSchemes m;
     defaultName := defaultName m;
     defaultFlag := defaultFlag m |}.

(** Modelled from the spec: rowCount(), the number of rows. *)
Definition rowCount (m : t) : Z := Z.of_nat (length (schemes m)).

(** Whether [row] is the index of a row of the table. *)
Definition validRow (row : Z) (m : t) : bool :=
  (0 <=? row) && (row <? rowCount m).

(** Modelled from the spec: the default value of each field of a new
    row (the model's own default scheme is not part of the sources).
    Numeric fields take the default of the parameter table. *)
Definition defaultCell (m : t) (w : Widget) : QVariant :=
  match w with
  | LE_name => VString (defaultName m)
  | TBW b => VBool (defaultFlag m b)
  | SB s => VInt (doc_default (spec_table s))
  end.

(** Modelled from the spec: the default-valued row, one cell per bound
    field, in section order. *)
Definition defaultScheme (m : t) : Scheme :=
  (λ b : Widget * Z, defaultCell m b.1) <$> mappings.

(** Modelled from the spec: AmmoSchemeModel's row insertion, which is
    not part of the sources. Row -1 appends a default-valued row
    ("new"); a valid row appends a copy of that row after the table
    end ("duplicate"); any other row is rejected. *)
Definition insertRow (row : Z) (m : t) : t :=
  if row =? -1 then with_schemes (schemes m ++ [defaultScheme m]) m
  else if validRow row m then
    match schemes m !! Z.to_nat row with
    | Some r => with_schemes (schemes m ++ [r]) m
    | None => m
    end
  else m.

(** Modelled from the spec: AmmoSchemeModel's row removal, which is not
    part of the sources: remove(index) deletes the row, the following
    rows move up by one; it fails, as a no-op, for index <
    numberOfDefaultSchemes (and for a row that does not exist). *)
Definition removeRow (row : Z) (m : t) : t :=
  if (row <? numberOfDefaultSchemes m) || negb (validRow row m) then m
  else with_schemes (delete (Z.to_nat row) (schemes m)) m.

(** Modelled from the spec: the store's set(index, field, value), which
    is not part of the sources; a cell that does not exist is left
    alone. *)
Definition setData (row col : Z) (v : QVariant) (m : t) : t :=
  if validRow row m && (0 <=? col) then
    with_schemes
      (alter (λ r : Scheme, <[Z.to_nat col := v]> r) (Z.to_nat row)
             (schemes m)) m
  else m.

(** Modelled from the spec: the store's get(index), read cell by cell
    as data(index(row, col)); a cell that does not exist has no
    value. *)
Definition data (row col : Z) (m : t) : option QVariant :=
  if validRow row m && (0 <=? col) then
    schemes m !! Z.to_nat row ≫= λ r : Scheme, r !! Z.to_nat col
  else None.

End AmmoSchemeModel.

#[global] Arguments AmmoSchemeModel.defaultScheme : simpl never.
#[global] Arguments AmmoSchemeModel.validRow : simpl never.
#[global] Arguments AmmoSchemeModel.rowCount : simpl never.

(** ** The page *)

(** The answer of the confirmation dialog, which offers Ok and Cancel. *)
Inductive StandardButton := Ok | Cancel.

#[global] Instance StandardButton_eq_dec : EqDecision StandardButton.
Proof. solve_decision. Defined.

Module PageScheme.

Import AmmoSchemeModel.

(** The state of the page the slots read and write: the model, the
    current index of the [selectScheme] combo box and of the mapper,
    and the enabled state of the widgets. *)
Record t := mk {
  model : AmmoSchemeModel.t;
  selectScheme_currentIndex : Z;
  mapper_currentIndex : Z;
  gbGameModes_enabled : bool;
  gbBasicSettings_enabled : bool;
  LE_name_enabled : bool;
  BtnCopy_enabled : bool;
  BtnNew_enabled : bool;
  BtnDelete_enabled : bool
}.

Definition with_model (m : AmmoSchemeModel.t) (p : t) : t :=
  {| model := m;
     selectScheme_currentIndex := selectScheme_currentIndex p;
     mapper_currentIndex := mapper_currentIndex p;
     gbGameModes_enabled := gbGameModes_enabled p;
     gbBasicSettings_enabled := gbBasicSettings_enabled p;
     LE_name_enabled := LE_name_enabled p;
     BtnCopy_enabled := BtnCopy_enabled p;
     BtnNew_enabled := BtnNew_enabled p;
     BtnDelete_enabled := BtnDelete_enabled p |}.

Definition with_current (n : Z) (p : t) : t :=
  {| model := model p;
     selectScheme_currentIndex := n;
     mapper_currentIndex := mapper_currentIndex p;
     gbGameModes_enabled := gbGameModes_enabled p;
     gbBasicSettings_enabled := gbBasicSettings_enabled p;
     LE_name_enabled := LE_name_enabled p;
     BtnCopy_enabled := BtnCopy_enabled p;
     BtnNew_enabled := BtnNew_enabled p;
     BtnDelete_enabled := BtnDelete_enabled p |}.

Definition with_mapper (n : Z) (p : t) : t :=
  {| model := model p;
     selectScheme_currentIndex := selectScheme_currentIndex p;
     mapper_currentIndex := n;
     gbGameModes_enabled := gbGameModes_enabled p;
     gbBasicSettings_enabled := gbBasicSettings_enabled p;
     LE_name_enabled := LE_name_enabled p;
     BtnCopy_enabled := BtnCopy_enabled p;
     BtnNew_enabled := BtnNew_enabled p;
     BtnDelete_enabled := BtnDelete_enabled p |}.

(** A field control accepts input when it and its parent are enabled:
    the toggles are children of [gbGameModes], the spin boxes of
    [gbBasicSettings], the name field is a child of the page. *)
Definition widgetEnabled (w : Widget) (p : t) : bool :=
  match w with
  | LE_name => LE_name_enabled p
  | TBW _ => gbGameModes_enabled p
  | SB _ => gbBasicSettings_enabled p
  end.

(** void PageScheme::schemeSelected(int n) *)
Definition schemeSelected (n : Z) (p : t) : t :=
  let c := numberOfDefaultSchemes (model p) in
  {| model := model p;
     selectScheme_currentIndex := selectScheme_currentIndex p;
     mapper_currentIndex := mapper_currentIndex p;
     gbGameModes_enabled := n >=? c;
     gbBasicSettings_enabled := n >=? c;
     LE_name_enabled := n >=? c;
     BtnCopy_enabled := BtnCopy_enabled p;
     BtnNew_enabled := BtnNew_enabled p;
     BtnDelete_enabled := BtnDelete_enabled p |}.

(** Qt's QDataWidgetMapper::setCurrentIndex: an index outside the model
    is ignored. *)
Definition mapper_setCurrentIndex (n : Z) (p : t) : t :=
  if validRow n (model p) then with_mapper n p else p.

(** The two slots connected to [selectScheme]'s
    currentIndexChanged(int), in connection order. *)
Definition currentIndexChanged (n : Z) (p : t) : t :=
  schemeSelected n (mapper_setCurrentIndex n p).

(** Qt's QComboBox::setCurrentIndex: a row outside the model selects
    nothing (-1); currentIndexChanged is emitted only when the index
    changes. *)
Definition selectScheme_setCurrentIndex (n : Z) (p : t) : t :=
  let n' := if validRow n (model p) then n else -1 in
  if n' =? selectScheme_currentIndex p then p
  else currentIndexChanged n' (with_current n' p).

(** Qt's QComboBox after the model appended a row at [start]: a combo
    box that was empty selects row 0. *)
Definition rowsInserted (start : Z) (p : t) : t :=
  if (start =? 0) && (selectScheme_currentIndex p <? 0)
  then selectScheme_setCurrentIndex 0 p
  else p.

(** Qt's persistent model index after row [r] was removed: it moves
    with its row, and is invalid (-1) when its row is the one removed. *)
Definition shiftIndex (r i : Z) : Z :=
  if i =? r then -1 else if r <? i then i - 1 else i.

(** Qt's QComboBox and QDataWidgetMapper after the model removed row
    [r]: the indices follow their rows; when the current row itself
    went, the combo box selects the row that took its place (or the last
    one); a change of the combo box's index is signalled. *)
Definition rowsRemoved (r : Z) (p : t) : t :=
  let before := selectScheme_currentIndex p in
  let p1 := with_mapper (shiftIndex r (mapper_currentIndex p))
              (with_current (shiftIndex r before) p) in
  let now := selectScheme_currentIndex p1 in
  if now =? before then p1
  else if (now <? 0) && (0 <? rowCount (model p1))
  then selectScheme_setCurrentIndex
         (Z.min (rowCount (model p1) - 1) (Z.max before 0)) p1
  else currentIndexChanged now p1.

(** model->insertRow(row), with the views notified. *)
Definition model_insertRow (row : Z) (p : t) : t :=
  let m' := insertRow row (model p) in
  if rowCount m' =? rowCount (model p) then p
  else rowsInserted (rowCount (model p)) (with_model m' p).

(** model->removeRow(row), with the views notified. *)
Definition model_removeRow (row : Z) (p : t) : t :=
  let m' := removeRow row (model p) in
  if rowCount m' =? rowCount (model p) then p
  else rowsRemoved row (with_model m' p).

(** void PageScheme::newRow() *)
Definition newRow (p : t) : t :=
  let p1 := model_insertRow (-1) p in
  selectScheme_setCurrentIndex (rowCount (model p1) - 1) p1.

(** void PageScheme::copyRow() *)
Definition copyRow (p : t) : t :=
  let p1 := model_insertRow (selectScheme_currentIndex p) p in
  selectScheme_setCurrentIndex (rowCount (model p1) - 1) p1.

(** void PageScheme::deleteRow(); [answer] is what reallyDelete.exec()
    returns. *)
Definition deleteRow (answer : StandardButton) (p : t) : t :=
  if decide (answer = Ok)
  then model_removeRow (selectScheme_currentIndex p) p
  else p.

(** The page after its constructor and [setModel(m)]. The constructor
    creates every widget enabled and disables none; [setModel] gives
    the model to the mapper and to the combo box, which selects the
    first row if there is one, and ends with [mapper->toFirst()]. *)
Definition setModel (m : AmmoSchemeModel.t) : t :=
  let p0 := {| model := m;
               selectScheme_currentIndex := -1;
               mapper_currentIndex := -1;
               gbGameModes_enabled := true;
               gbBasicSettings_enabled := true;
               LE_name_enabled := true;
               BtnCopy_enabled := true;
               BtnNew_enabled := true;
               BtnDelete_enabled := true |} in
  mapper_setCurrentIndex 0 (selectScheme_setCurrentIndex 0 p0).

(** Qt's QDataWidgetMapper under its default submit policy (the page
    never sets another and never calls submit()): the value of an
    edited control goes to the section the control is bound to, in the
    mapper's current row. A disabled control takes no input. *)
Definition submit (w : Widget) (v : QVariant) (p : t) : t :=
  if widgetEnabled w p then
    match mappedSection w with
    | Some col =>
        with_model (setData (mapper_currentIndex p) col v (model p)) p
    | None => p
    end
  else p.

(** What the user can do on the page. *)
Inductive Event :=
  | SelectScheme (n : Z)
  | ClickNew
  | ClickCopy
  | ClickDelete (answer : StandardButton)
  | EditName (s : string)
  | Toggle (b : ToggleButton) (checked : bool)
  | EditSpin (s : SpinBox) (v : Z).

(** A value typed into a spin box is the value the box then holds. *)
Definition spinValue (s : SpinBox) (v : Z) : Z :=
  QSpinBox.value (QSpinBox.setValue v (construct s)).

(** A click reaches its slot only when the button is enabled. *)
Definition step (e : Event) (p : t) : t :=
  match e with
  | SelectScheme n => selectScheme_setCurrentIndex n p
  | ClickNew => if BtnNew_enabled p then newRow p else p
  | ClickCopy => if BtnCopy_enabled p then copyRow p else p
  | ClickDelete answer =>
      if BtnDelete_enabled p then deleteRow answer p else p
  | EditName s => submit LE_name (VString s) p
  | Toggle b checked => submit (TBW b) (VBool checked) p
  | EditSpin s v => submit (SB s) (VInt (spinValue s v)) p
  end.

Definition run (es : list Event) (p : t) : t :=
  fold_left (λ q e, step e q) es p.

End PageScheme.

#[global] Arguments PageScheme.selectScheme_setCurrentIndex : simpl never.
#[global] Arguments PageScheme.currentIndexChanged : simpl never.
#[global] Arguments PageScheme.rowsInserted : simpl never.
#[global] Arguments PageScheme.rowsRemoved : simpl never.
#[global] Arguments PageScheme.model_insertRow : simpl never.
#[global] Arguments PageScheme.model_removeRow : simpl never.
#[global] Arguments PageScheme.newRow : simpl never.
#[global] Arguments PageScheme.copyRow : simpl never.
#[global] Arguments PageScheme.deleteRow : simpl never.
#[global] Arguments PageScheme.submit : simpl never.
#[global] Arguments PageScheme.setModel : simpl never.

(** ** A sample table: two default rows and one custom row *)

Definition sampleRow (m : AmmoSchemeModel.t) (name : string) (damage : Z)
    : Scheme :=
  <[25%nat := VInt damage]>
    (<[0%nat := VString name]> (AmmoSchemeModel.defaultScheme m)).

Definition sampleModel : AmmoSchemeModel.t :=
  let m0 := {| AmmoSchemeModel.schemes := [];
               AmmoSchemeModel.numberOfDefaultSchemes := 2;
               AmmoSchemeModel.defaultName := "new";
               AmmoSchemeModel.defaultFlag := λ _, false |} in
  AmmoSchemeModel.with_schemes
    [ sampleRow m0 "Default" 100; sampleRow m0 "Pro mode" 100;
      sampleRow m0 "MyScheme" 150 ] m0.

(** The page showing the sample table with the custom row selected. *)
Definition samplePage : PageScheme.t :=
  PageScheme.step (PageScheme.SelectScheme 2) (PageScheme.setModel sampleModel).

#[global] Arguments sampleRow : simpl never.
#[global] Arguments sampleModel : simpl never.
#[global] Arguments samplePage : simpl never.

Import AmmoSchemeModel PageScheme.

(** ** Invariants of the page *)

(** The enabled state of the Copy, New and Delete buttons. *)
Definition buttons (p : PageScheme.t) : bool * bool * bool :=
  (BtnCopy_enabled p, BtnNew_enabled p, BtnDelete_enabled p).

(** What holds of the page from [setModel] on: the combo box points at
    an existing row or at none; when it points at a row, the mapper
    points at the same row and the field controls are enabled exactly
    when that row is past the default schemes. *)
Record Inv (p : PageScheme.t) : Prop := {
  inv_current :
    -1 ≤ selectScheme_currentIndex p < rowCount (model p);
  inv_mapper :
    0 ≤ selectScheme_currentIndex p →
    mapper_currentIndex p = selectScheme_currentIndex p;
  inv_locked :
    0 ≤ selectScheme_currentIndex p → ∀ w,
    widgetEnabled w p =
    (selectScheme_currentIndex p >=? numberOfDefaultSchemes (model p))
}.

(** The default schemes stay within the table. *)
Definition DefaultsPresent (p : PageScheme.t) : Prop :=
  numberOfDefaultSchemes (model p) ≤ rowCount (model p).

(** The rows of the default schemes. *)
Definition defaultRows (p : PageScheme.t) : list Scheme :=
  take (Z.to_nat (numberOfDefaultSchemes (model p))) (schemes (model p)).

(** While a field control takes input, the mapper points at no row or at
    a row past the default schemes. *)
Definition EditLock (p : PageScheme.t) : Prop :=
  ∀ w, widgetEnabled w p = true →
       mapper_currentIndex p < 0 ∨
       numberOfDefaultSchemes (model p) ≤ mapper_currentIndex p.

(** ** The layout of the field controls *)

(** The cell (row, column) of [glGMLayout] each toggle is added to in
    the constructor: glGMLayout->addWidget(toggle, row, column, 1, 1). *)
Definition gridCell (b : ToggleButton) : Z * Z :=
  match b with
  | TBW_mode_Forts => (0, 0)
  | TBW_teamsDivide => (0, 1)
  | TBW_solid => (0, 2)
  | TBW_border => (0, 3)
  | TBW_lowGravity => (0, 4)
  | TBW_laserSight => (1, 0)
  | TBW_invulnerable => (1, 1)
  | TBW_resethealth => (1, 2)
  | TBW_vampiric => (1, 3)
  | TBW_karma => (1, 4)
  | TBW_artillery => (2, 0)
  | TBW_randomorder => (2, 1)
  | TBW_king => (2, 2)
  | TBW_placehog => (2, 3)
  | TBW_sharedammo => (2, 4)
  | TBW_disablegirders => (3, 0)
  | TBW_disablelandobjects => (3, 1)
  | TBW_aisurvival => (3, 2)
  | TBW_infattack => (3, 3)
  | TBW_resetweps => (3, 4)
  | TBW_perhogammo => (4, 0)
  | TBW_nowind => (4, 1)
  | TBW_morewind => (4, 2)
  | TBW_tagteam => (4, 3)
  end.

(** The cell of [glBSLayout] each spin box is added to in the
    constructor: glBSLayout->addWidget(spinBox, row, 2, 1, 1); the text
    label of the same setting goes to column 0 and its icon to column 1
    of that row. *)
Definition settingsCell (s : SpinBox) : Z * Z :=
  match s with
  | SB_DamageModifier => (0, 2)
  | SB_TurnTime => (1, 2)
  | SB_InitHealth => (2, 2)
  | SB_SuddenDeath => (3, 2)
  | SB_WaterRise => (4, 2)
  | SB_HealthDecrease => (5, 2)
  | SB_RopeModifier => (6, 2)
  | SB_CaseProb => (7, 2)
  | SB_HealthCrates => (8, 2)
  | SB_CrateHealth => (9, 2)
  | SB_MinesTime => (10, 2)
  | SB_Mines => (11, 2)
  | SB_MineDuds => (12, 2)
  | SB_Explosives => (13, 2)
  | SB_GetAwayTime => (14, 2)
  end.

(** ** Further invariants of the page *)

(** The two group boxes and the name field are locked or unlocked
    together. *)
Definition LocksAgree (p : PageScheme.t) : Prop :=
  gbGameModes_enabled p = gbBasicSettings_enabled p ∧
  gbBasicSettings_enabled p = LE_name_enabled p.

(** The cell of row [r] in the section of spin box [s], when it holds a
    number, holds one within the range the constructor gave [s]. *)
Definition cellInRange (s : SpinBox) (r : Scheme) : bool :=
  match mappedSection (SB s) with
  | Some col =>
      match r !! Z.to_nat col with
      | Some (VInt x) =>
          (QSpinBox.minimum (construct s) <=? x)
          && (x <=? QSpinBox.maximum (construct s))
      | _ => true
      end
  | None => true
  end.

Definition rowInRange (r : Scheme) : bool :=
  forallb (λ s, cellInRange s r) spinBoxes.

(** Every number of the table is within the range of its control. *)
Definition tableInRange (m : AmmoSchemeModel.t) : bool :=
  forallb rowInRange (schemes m).

(** A table with no rows. *)
Definition emptyModel : AmmoSchemeModel.t :=
  {| AmmoSchemeModel.schemes := [];
     AmmoSchemeModel.numberOfDefaultSchemes := 0;
     AmmoSchemeModel.defaultName := "new";
     AmmoSchemeModel.defaultFlag := λ _, false |}.

#[global] Arguments emptyModel : simpl never.
#[global] Arguments cellInRange : simpl never.
#[global] Arguments rowInRange : simpl never.

(** ** Facts about the model *)

Section ModelFacts.

Implicit Types (m : AmmoSchemeModel.t) (row col : Z).

Lemma rowCount_nonneg m : 0 ≤ rowCount m.
Proof. unfold rowCount. lia. Qed.

Lemma validRow_true row m :
  validRow row m = true ↔ 0 ≤ row < rowCount m.
Proof. unfold validRow. rewrite andb_true_iff, Z.leb_le, Z.ltb_lt. tauto. Qed.

Lemma validRow_false row m :
  validRow row m = false ↔ row < 0 ∨ rowCount m ≤ row.
Proof.
  unfold validRow. rewrite andb_false_iff, Z.leb_gt, Z.ltb_ge. tauto.
Qed.

Lemma insertRow_new m :
  insertRow (-1) m = with_schemes (schemes m ++ [defaultScheme m]) m.
Proof. reflexivity. Qed.

Lemma insertRow_copy row m r :
  0 ≤ row → schemes m !! Z.to_nat row = Some r →
  insertRow row m = with_schemes (schemes m ++ [r]) m.
Proof.
  intros Hrow Hr. unfold insertRow.
  destruct (row =? -1) eqn:E; [apply Z.eqb_eq in E; lia|].
  assert (validRow row m = true) as ->.
  { apply validRow_true. apply lookup_lt_Some in Hr. unfold rowCount. lia. }
  by rewrite Hr.
Qed.

Lemma removeRow_default row m :
  row < numberOfDefaultSchemes m → removeRow row m = m.
Proof.
  intros H. unfold removeRow.
  by apply Z.ltb_lt in H as ->.
Qed.

Lemma removeRow_custom row m :
  numberOfDefaultSchemes m ≤ row → 0 ≤ row < rowCount m →
  removeRow row m = with_schemes (delete (Z.to_nat row) (schemes m)) m.
Proof.
  intros Hc Hrow. unfold removeRow.
  apply Z.ltb_ge in Hc as ->. by apply validRow_true in Hrow as ->.
Qed.

Lemma numberOfDefaultSchemes_insertRow row m :
  numberOfDefaultSchemes (insertRow row m) = numberOfDefaultSchemes m.
Proof. unfold insertRow. repeat case_match; reflexivity. Qed.

Lemma numberOfDefaultSchemes_removeRow row m :
  numberOfDefaultSchemes (removeRow row m) = numberOfDefaultSchemes m.
Proof. unfold removeRow. repeat case_match; reflexivity. Qed.

Lemma numberOfDefaultSchemes_setData row col v m :
  numberOfDefaultSchemes (setData row col v m) = numberOfDefaultSchemes m.
Proof. unfold setData. repeat case_match; reflexivity. Qed.

Lemma rowCount_setData row col v m :
  rowCount (setData row col v m) = rowCount m.
Proof.
  unfold setData. case_match; [|done].
  unfold rowCount. simpl. by rewrite length_alter.
Qed.

(** Row insertion appends one row or none. *)
Lemma insertRow_cases row m :
  insertRow row m = m ∨
  ∃ r, insertRow row m = with_schemes (schemes m ++ [r]) m.
Proof. unfold insertRow. repeat case_match; eauto. Qed.

Lemma rowCount_insertRow row m :
  rowCount (insertRow row m) = rowCount m ∨
  rowCount (insertRow row m) = rowCount m + 1.
Proof.
  destruct (insertRow_cases row m) as [->|[r ->]]; [by left|right].
  unfold rowCount. cbn [schemes with_schemes].
  rewrite length_app. cbn [length]. lia.
Qed.

(** Row removal removes one row or none. *)
Lemma rowCount_removeRow row m :
  (removeRow row m = m) ∨
  (numberOfDefaultSchemes m ≤ row ∧ 0 ≤ row < rowCount m ∧
   rowCount (removeRow row m) = rowCount m - 1).
Proof.
  unfold removeRow.
  destruct (row <? numberOfDefaultSchemes m) eqn:Hc; simpl; [by left|].
  destruct (validRow row m) eqn:Hv; simpl; [|by left].
  right. apply Z.ltb_ge in Hc. apply validRow_true in Hv.
  split; [done|]. split; [done|].
  unfold rowCount in *. simpl.
  rewrite length_delete; [lia|]. apply lookup_lt_is_Some. lia.
Qed.

End ModelFacts.

(** ** Facts about the bindings *)

Lemma mappings_sections : (λ m : Widget * Z, m.2) <$> mappings = seqZ 0 40.
Proof. reflexivity. Qed.

Lemma mappedSection_range w col :
  mappedSection w = Some col → 0 ≤ col < 40.
Proof.
  destruct w as [|b|s]; [|destruct b|destruct s];
    vm_compute; intros [= <-]; split; congruence.
Qed.

Lemma mappedSection_total w : is_Some (mappedSection w).
Proof. destruct w as [|b|s]; [|destruct b|destruct s]; vm_compute; eauto. Qed.

Lemma mappedSection_lookup w col :
  mappedSection w = Some col → mappings !! Z.to_nat col = Some (w, col).
Proof.
  destruct w as [|b|s]; [|destruct b|destruct s];
    vm_compute; intros [= <-]; reflexivity.
Qed.

(** ** Facts about the page *)

(** Each slot keeps the enabled state of the three buttons. *)
Lemma buttons_schemeSelected n p : buttons (schemeSelected n p) = buttons p.
Proof. reflexivity. Qed.

Lemma buttons_mapper_setCurrentIndex n p :
  buttons (mapper_setCurrentIndex n p) = buttons p.
Proof. unfold mapper_setCurrentIndex. by case_match. Qed.

Lemma buttons_currentIndexChanged n p :
  buttons (currentIndexChanged n p) = buttons p.
Proof.
  unfold currentIndexChanged.
  by rewrite buttons_schemeSelected, buttons_mapper_setCurrentIndex.
Qed.

Lemma buttons_selectScheme_setCurrentIndex n p :
  buttons (selectScheme_setCurrentIndex n p) = buttons p.
Proof.
  unfold selectScheme_setCurrentIndex. cbv zeta.
  case_match; [done|]. by rewrite buttons_currentIndexChanged.
Qed.

Lemma buttons_rowsInserted start p : buttons (rowsInserted start p) = buttons p.
Proof.
  unfold rowsInserted. case_match; [|done].
  apply buttons_selectScheme_setCurrentIndex.
Qed.

Lemma buttons_rowsRemoved r p : buttons (rowsRemoved r p) = buttons p.
Proof.
  unfold rowsRemoved. cbv zeta. repeat case_match;
    by rewrite ?buttons_selectScheme_setCurrentIndex,
         ?buttons_currentIndexChanged.
Qed.

Lemma buttons_model_insertRow row p :
  buttons (model_insertRow row p) = buttons p.
Proof.
  unfold model_insertRow. cbv zeta. case_match; [done|].
  by rewrite buttons_rowsInserted.
Qed.

Lemma buttons_model_removeRow row p :
  buttons (model_removeRow row p) = buttons p.
Proof.
  unfold model_removeRow. cbv zeta. case_match; [done|].
  by rewrite buttons_rowsRemoved.
Qed.

Lemma buttons_newRow p : buttons (newRow p) = buttons p.
Proof.
  unfold newRow. cbv zeta.
  by rewrite buttons_selectScheme_setCurrentIndex, buttons_model_insertRow.
Qed.

Lemma buttons_copyRow p : buttons (copyRow p) = buttons p.
Proof.
  unfold copyRow. cbv zeta.
  by rewrite buttons_selectScheme_setCurrentIndex, buttons_model_insertRow.
Qed.

Lemma buttons_deleteRow answer p : buttons (deleteRow answer p) = buttons p.
Proof.
  unfold deleteRow. case_decide; [|done]. apply buttons_model_removeRow.
Qed.

Lemma buttons_submit w v p : buttons (submit w v p) = buttons p.
Proof. unfold submit. by repeat case_match. Qed.

Lemma buttons_step e p : buttons (step e p) = buttons p.
Proof.
  destruct e; cbn [step]; repeat case_match;
    auto using buttons_selectScheme_setCurrentIndex, buttons_newRow,
      buttons_copyRow, buttons_deleteRow, buttons_submit.
Qed.

Lemma buttons_run es p : buttons (run es p) = buttons p.
Proof.
  revert p. induction es as [|e es IH]; intros p; [done|].
  cbn [run fold_left]. fold (run es (step e p)).
  by rewrite IH, buttons_step.
Qed.

Lemma buttons_setModel m : buttons (setModel m) = (true, true, true).
Proof.
  unfold setModel. cbv zeta.
  by rewrite buttons_mapper_setCurrentIndex,
    buttons_selectScheme_setCurrentIndex.
Qed.

Ltac zbool :=
  repeat match goal with
  | H : (_ =? _) = true |- _ => apply Z.eqb_eq in H
  | H : (_ =? _) = false |- _ => apply Z.eqb_neq in H
  | H : (_ <? _) = true |- _ => apply Z.ltb_lt in H
  | H : (_ <? _) = false |- _ => apply Z.ltb_ge in H
  | H : (_ <=? _) = true |- _ => apply Z.leb_le in H
  | H : (_ <=? _) = false |- _ => apply Z.leb_gt in H
  | H : (_ >=? _) = true |- _ => rewrite Z.geb_leb in H
  | H : (_ >=? _) = false |- _ => rewrite Z.geb_leb in H
  | H : validRow _ _ = true |- _ => apply validRow_true in H
  | H : validRow _ _ = false |- _ => apply validRow_false in H
  | H : _ && _ = true |- _ => apply andb_true_iff in H as [? ?]
  | H : _ && _ = false |- _ => apply andb_false_iff in H as [?|?]
  end.

(** The slots leave the model alone unless they call it. *)
Lemma model_mapper_setCurrentIndex n p :
  model (mapper_setCurrentIndex n p) = model p.
Proof. unfold mapper_setCurrentIndex. by case_match. Qed.

Lemma model_currentIndexChanged n p :
  model (currentIndexChanged n p) = model p.
Proof.
  unfold currentIndexChanged, schemeSelected. cbn [model].
  apply model_mapper_setCurrentIndex.
Qed.

Lemma model_selectScheme_setCurrentIndex n p :
  model (selectScheme_setCurrentIndex n p) = model p.
Proof.
  unfold selectScheme_setCurrentIndex. cbv zeta.
  case_match; [done|]. by rewrite model_currentIndexChanged.
Qed.

Lemma model_rowsInserted start p : model (rowsInserted start p) = model p.
Proof.
  unfold rowsInserted. case_match; [|done].
  apply model_selectScheme_setCurrentIndex.
Qed.

Lemma model_rowsRemoved r p : model (rowsRemoved r p) = model p.
Proof.
  unfold rowsRemoved. cbv zeta. repeat case_match;
    by rewrite ?model_selectScheme_setCurrentIndex,
         ?model_currentIndexChanged.
Qed.

Lemma model_model_insertRow row p :
  model (model_insertRow row p) = insertRow row (model p).
Proof.
  unfold model_insertRow.
  destruct (rowCount (insertRow row (model p)) =? rowCount (model p)) eqn:E.
  - apply Z.eqb_eq in E.
    destruct (insertRow_cases row (model p)) as [->|[r Hr]]; [done|].
    rewrite Hr in E. unfold rowCount in E. cbn [schemes with_schemes] in E.
    rewrite length_app in E. cbn [length] in E. lia.
  - by rewrite model_rowsInserted.
Qed.

Lemma model_model_removeRow row p :
  model (model_removeRow row p) = removeRow row (model p).
Proof.
  unfold model_removeRow.
  destruct (rowCount (removeRow row (model p)) =? rowCount (model p)) eqn:E.
  - apply Z.eqb_eq in E.
    destruct (rowCount_removeRow row (model p)) as [->|(_ & _ & H)]; [done|lia].
  - by rewrite model_rowsRemoved.
Qed.

Lemma numberOfDefaultSchemes_step e p :
  numberOfDefaultSchemes (model (step e p)) = numberOfDefaultSchemes (model p).
Proof.
  destruct e; cbn [step]; repeat case_match; try done;
    unfold newRow, copyRow, deleteRow, submit; cbv zeta;
    repeat case_match; try done;
    rewrite ?model_selectScheme_setCurrentIndex, ?model_model_insertRow,
      ?model_model_removeRow; cbn [model with_model];
    by rewrite ?numberOfDefaultSchemes_setData,
         ?numberOfDefaultSchemes_insertRow, ?numberOfDefaultSchemes_removeRow.
Qed.

(** Selecting an existing row that is not the current one: the combo
    box, the mapper and the lock all follow. *)
Lemma select_other n p :
  0 ≤ n < rowCount (model p) → n ≠ selectScheme_currentIndex p →
  selectScheme_setCurrentIndex n p =
  schemeSelected n (with_mapper n (with_current n p)).
Proof.
  intros Hn Hne. apply validRow_true in Hn. apply Z.eqb_neq in Hne.
  unfold selectScheme_setCurrentIndex, currentIndexChanged,
    mapper_setCurrentIndex. cbv zeta. rewrite Hn, Hne.
  cbn [model with_current]. by rewrite Hn.
Qed.

Lemma select_same n p :
  0 ≤ n < rowCount (model p) → n = selectScheme_currentIndex p →
  selectScheme_setCurrentIndex n p = p.
Proof.
  intros Hn He. apply validRow_true in Hn. apply Z.eqb_eq in He.
  unfold selectScheme_setCurrentIndex. cbv zeta. by rewrite Hn, He.
Qed.

(** ** The invariant holds in every reachable state *)

Lemma Inv_unselected p : selectScheme_currentIndex p = -1 → Inv p.
Proof.
  intros H. pose proof (rowCount_nonneg (model p)).
  split; rewrite H; intros; lia.
Qed.

Lemma Inv_selected n p :
  0 ≤ n < rowCount (model p) →
  Inv (schemeSelected n (with_mapper n (with_current n p))).
Proof.
  intros Hn. split; simpl; [lia|done|]. by intros _ [].
Qed.

Lemma Inv_select n p : Inv p → Inv (selectScheme_setCurrentIndex n p).
Proof.
  intros HI.
  destruct (validRow n (model p)) eqn:Hv.
  - apply validRow_true in Hv.
    destruct (decide (n = selectScheme_currentIndex p)) as [He|Hne].
    + by rewrite select_same.
    + rewrite select_other by done. by apply Inv_selected.
  - unfold selectScheme_setCurrentIndex. rewrite Hv.
    case_match; [done|]. by apply Inv_unselected.
Qed.

Lemma Inv_with_model m' p :
  Inv p →
  numberOfDefaultSchemes m' = numberOfDefaultSchemes (model p) →
  rowCount (model p) ≤ rowCount m' →
  Inv (with_model m' p).
Proof.
  intros [H1 H2 H3] Hc Hn. split; simpl.
  - lia.
  - done.
  - intros H w. rewrite Hc, <- (H3 H w). by destruct w.
Qed.

Lemma Inv_model_insertRow row p : Inv p → Inv (model_insertRow row p).
Proof.
  intros HI. unfold model_insertRow. case_match; [done|].
  unfold rowsInserted.
  assert (Inv (with_model (insertRow row (model p)) p)).
  { apply Inv_with_model; [done|apply numberOfDefaultSchemes_insertRow|].
    destruct (rowCount_insertRow row (model p)); lia. }
  case_match; [by apply Inv_select|done].
Qed.

Lemma Inv_newRow p : Inv p → Inv (newRow p).
Proof. intros. by apply Inv_select, Inv_model_insertRow. Qed.

Lemma Inv_copyRow p : Inv p → Inv (copyRow p).
Proof. intros. by apply Inv_select, Inv_model_insertRow. Qed.

Lemma Inv_deleteRow answer p : Inv p → Inv (deleteRow answer p).
Proof.
  intros HI. unfold deleteRow. case_decide; [|done].
  unfold model_removeRow. case_match; [done|].
  set (r := selectScheme_currentIndex p) in *.
  destruct (rowCount_removeRow r (model p)) as [E|(Hc & Hr & Hn)].
  { rewrite E in *. zbool. lia. }
  unfold rowsRemoved. simpl. fold r.
  assert (shiftIndex r r = -1) as Hs.
  { unfold shiftIndex. by rewrite Z.eqb_refl. }
  rewrite Hs. destruct (-1 =? r) eqn:E; [zbool; lia|].
  case_match.
  - apply Inv_select, Inv_unselected. done.
  - apply Inv_unselected. done.
Qed.

Lemma Inv_submit w v p : Inv p → Inv (submit w v p).
Proof.
  intros HI. unfold submit. repeat case_match; try done.
  apply Inv_with_model; [done|apply numberOfDefaultSchemes_setData|].
  by rewrite rowCount_setData.
Qed.

Lemma Inv_step e p : Inv p → Inv (step e p).
Proof.
  intros HI. destruct e; simpl; repeat case_match;
    auto using Inv_select, Inv_newRow, Inv_copyRow, Inv_deleteRow, Inv_submit.
Qed.

Lemma Inv_run es p : Inv p → Inv (run es p).
Proof.
  revert p. induction es as [|e es IH]; intros p HI; [done|].
  simpl. fold (run es (step e p)). by apply IH, Inv_step.
Qed.

Lemma Inv_setModel m : Inv (setModel m).
Proof.
  unfold setModel.
  set (p0 := PageScheme.mk _ _ _ _ _ _ _ _ _).
  assert (Inv p0) as H0 by by apply Inv_unselected.
  apply (Inv_select 0) in H0.
  unfold mapper_setCurrentIndex. case_match; [|done].
  destruct H0 as [H1 H2 H3].
  rewrite model_selectScheme_setCurrentIndex in *.
  zbool.
  destruct (decide (0 = selectScheme_currentIndex p0)) as [He|Hne]; [done|].
  rewrite select_other in * by done. simpl in *.
  split; simpl; [lia|done|]. by intros _ [].
Qed.

(** Every state the user can bring the page to satisfies the invariant. *)
Lemma Inv_reachable m es : Inv (run es (setModel m)).
Proof. apply Inv_run, Inv_setModel. Qed.

Lemma DefaultsPresent_step e p :
  DefaultsPresent p → DefaultsPresent (step e p).
Proof.
  unfold DefaultsPresent. intros H.
  rewrite numberOfDefaultSchemes_step.
  destruct e; simpl; repeat case_match; try done;
    unfold newRow, copyRow, deleteRow, submit; repeat case_match; try done;
    rewrite ?model_selectScheme_setCurrentIndex, ?model_model_insertRow,
      ?model_model_removeRow; simpl; rewrite ?rowCount_setData; try done.
  - destruct (rowCount_insertRow (-1) (model p)); lia.
  - destruct (rowCount_insertRow (selectScheme_currentIndex p) (model p)); lia.
  - destruct (rowCount_removeRow (selectScheme_currentIndex p) (model p))
      as [->|?]; lia.
Qed.

Lemma DefaultsPresent_reachable m es :
  numberOfDefaultSchemes m ≤ rowCount m →
  DefaultsPresent (run es (setModel m)).
Proof.
  intros Hm.
  assert (DefaultsPresent (setModel m)) as H0.
  { unfold DefaultsPresent, setModel, mapper_setCurrentIndex.
    case_match; simpl; by rewrite model_selectScheme_setCurrentIndex. }
  revert H0. generalize (setModel m). induction es as [|e es IH]; [done|].
  intros p Hp. simpl. fold (run es (step e p)).
  by apply IH, DefaultsPresent_step.
Qed.

(** * The claims *)

(** ** Lock state (schemeSelected) *)

(** C3: for every index n, [schemeSelected n] leaves every field control
    (the toggles, the spin boxes) and the name field enabled exactly when
    n >= numberOfDefaultSchemes; and in every state the user can reach,
    a selected row has its controls enabled exactly when its index is
    >= numberOfDefaultSchemes. *)
Theorem schemeSelected_enables_past_defaults :
  (∀ (n : Z) (p : PageScheme.t) (w : Widget),
     widgetEnabled w (schemeSelected n p) =
     bool_decide (numberOfDefaultSchemes (model p) ≤ n)) ∧
  (∀ (m : AmmoSchemeModel.t) (es : list Event) (w : Widget),
     let p := run es (setModel m) in
     selectScheme_currentIndex p = -1 ∨
     widgetEnabled w p =
     bool_decide (numberOfDefaultSchemes (model p)
                  ≤ selectScheme_currentIndex p)).
Proof.
  assert (∀ n c, (n >=? c) = bool_decide (c ≤ n)) as Hgeb.
  { intros n c. rewrite Z.geb_leb.
    destruct (Z.leb_spec c n); symmetry;
      [apply bool_decide_eq_true|apply bool_decide_eq_false]; lia. }
  split.
  - intros n p w. rewrite <- Hgeb. by destruct w.
  - intros m es w p. destruct (Inv_reachable m es) as [H1 _ H3]. fold p in H1, H3.
    destruct (decide (selectScheme_currentIndex p = -1)) as [|Hne]; [by left|].
    right. rewrite <- Hgeb. apply H3. lia.
Qed.

(** ** Deleting a row *)

(** C6: when the confirmation dialog is cancelled, [deleteRow] leaves the
    page, and with it the row count and every cell of every row,
    unchanged. *)
Theorem deleteRow_cancel_unchanged :
  ∀ p : PageScheme.t,
    deleteRow Cancel p = p ∧
    step (ClickDelete Cancel) p = p ∧
    rowCount (model (deleteRow Cancel p)) = rowCount (model p) ∧
    schemes (model (deleteRow Cancel p)) = schemes (model p).
Proof.
  intros p. assert (deleteRow Cancel p = p) as H by reflexivity.
  rewrite H. repeat split. simpl. rewrite H. by case_match.
Qed.

(** C1: while a row with index < numberOfDefaultSchemes is selected,
    [deleteRow] is a no-op whatever the dialog answers: the model rejects
    the removal, so no default row leaves the table. *)
Theorem deleteRow_default_row_noop
    (p : PageScheme.t) (answer : StandardButton) :
  selectScheme_currentIndex p < numberOfDefaultSchemes (model p) →
  deleteRow answer p = p ∧
  step (ClickDelete answer) p = p ∧
  schemes (model (deleteRow answer p)) = schemes (model p).
Proof.
  intros H.
  assert (deleteRow answer p = p) as E.
  { unfold deleteRow. case_decide; [|done].
    unfold model_removeRow. rewrite removeRow_default by done.
    by rewrite Z.eqb_refl. }
  rewrite E. repeat split. simpl. rewrite E. by case_match.
Qed.

Lemma deleteRow_default_row_noop_witness :
  selectScheme_currentIndex (setModel sampleModel)
    < numberOfDefaultSchemes (model (setModel sampleModel)) ∧
  deleteRow Ok (setModel sampleModel) = setModel sampleModel.
Proof.
  split; [reflexivity|].
  apply (deleteRow_default_row_noop (setModel sampleModel) Ok).
  reflexivity.
Defined.

(** C5 as stated fails: with a default row selected, a confirmed
    [deleteRow] leaves the row count as it was. *)
Lemma deleteRow_confirmed_counterexample :
  let p := setModel sampleModel in
  0 ≤ selectScheme_currentIndex p < rowCount (model p) ∧
  rowCount (model (deleteRow Ok p)) ≠ rowCount (model p) - 1.
Proof. vm_compute. split; [split|]; congruence. Qed.

(** C5 (amended): when the selected row exists and is not a default row,
    a confirmed [deleteRow] removes exactly that row: the row count
    drops by one, the rows before it stay, the rows after it move up by
    one. *)
Theorem deleteRow_confirmed_removes_selected (p : PageScheme.t) :
  numberOfDefaultSchemes (model p) ≤ selectScheme_currentIndex p →
  0 ≤ selectScheme_currentIndex p < rowCount (model p) →
  let i := Z.to_nat (selectScheme_currentIndex p) in
  let p' := deleteRow Ok p in
  rowCount (model p') = rowCount (model p) - 1 ∧
  schemes (model p') = delete i (schemes (model p)) ∧
  (∀ j : nat, schemes (model p') !! j =
     if bool_decide (j < i)%nat then schemes (model p) !! j
     else schemes (model p) !! S j) ∧
  step (ClickDelete Ok) p = (if BtnDelete_enabled p then p' else p).
Proof.
  intros Hc Hi i p'.
  assert (model p' = with_schemes (delete i (schemes (model p))) (model p)) as E.
  { unfold p', deleteRow. simpl.
    by rewrite model_model_removeRow, removeRow_custom. }
  rewrite E. simpl. split; [|split; [done|split; [|done]]].
  - unfold rowCount in *. simpl. rewrite length_delete; [lia|].
    apply lookup_lt_is_Some. lia.
  - intros j. case_bool_decide.
    + by apply list_lookup_delete_lt.
    + apply list_lookup_delete_ge. lia.
Qed.

Lemma deleteRow_confirmed_removes_selected_witness :
  rowCount (model (deleteRow Ok samplePage)) = rowCount (model samplePage) - 1 ∧
  schemes (model (deleteRow Ok samplePage)) =
    delete 2%nat (schemes (model samplePage)).
Proof.
  destruct (deleteRow_confirmed_removes_selected samplePage)
    as (H1 & H2 & _); [vm_compute; congruence|vm_compute; split; congruence|].
  split; [exact H1|exact H2].
Defined.

(** ** Appending rows *)

Lemma data_last_row (m : AmmoSchemeModel.t) (rows : list Scheme) (r : Scheme)
    (col : Z) :
  0 ≤ col →
  data (Z.of_nat (length rows)) col (with_schemes (rows ++ [r]) m)
  = r !! Z.to_nat col.
Proof.
  intros Hcol. unfold data, validRow, rowCount. simpl.
  rewrite length_app. simpl.
  assert ((0 <=? Z.of_nat (length rows)) = true) as -> by (apply Z.leb_le; lia).
  assert ((Z.of_nat (length rows) <? Z.of_nat (length rows + 1)) = true)
    as -> by (apply Z.ltb_lt; lia).
  apply Z.leb_le in Hcol as ->. simpl.
  rewrite Nat2Z.id, lookup_app_r, Nat.sub_diag by lia. done.
Qed.

(** After a row was appended to a table whose selection was on an
    existing row or on none, selecting the last row moves the combo box,
    the mapper and the lock to it. *)
Lemma select_appended (m' : AmmoSchemeModel.t) (p : PageScheme.t) :
  selectScheme_currentIndex p < rowCount (model p) →
  rowCount m' = rowCount (model p) + 1 →
  let p1 := rowsInserted (rowCount (model p)) (with_model m' p) in
  let p' := selectScheme_setCurrentIndex (rowCount (model p1) - 1) p1 in
  model p' = m' ∧
  selectScheme_currentIndex p' = rowCount (model p) ∧
  mapper_currentIndex p' = rowCount (model p) ∧
  ∀ w, widgetEnabled w p' =
       (rowCount (model p) >=? numberOfDefaultSchemes m').
Proof.
  intros Hcur Hn p1 p'. pose proof (rowCount_nonneg (model p)) as Hnn.
  assert (model p1 = m') as Hm1 by apply model_rowsInserted.
  unfold p'. rewrite Hm1, Hn.
  replace (rowCount (model p) + 1 - 1) with (rowCount (model p)) by lia.
  unfold p1, rowsInserted.
  destruct ((rowCount (model p) =? 0) && (selectScheme_currentIndex _ <? 0))
    eqn:E; simpl in E.
  - zbool. rewrite (select_other 0); simpl; [|lia..].
    rewrite select_same; simpl; [|lia..].
    replace (rowCount (model p)) with 0 by lia.
    repeat split. by intros [].
  - rewrite select_other; simpl; [|lia..].
    repeat split. by intros [].
Qed.

(** C2: on a table whose selected row R exists, [copyRow] appends one
    row after the last row, the other rows keep their places; the new
    last row has R's cells, column by column, and becomes the selected
    row. *)
Theorem copyRow_appends_copy_of_selected (p : PageScheme.t) (R : Scheme) :
  0 ≤ selectScheme_currentIndex p →
  schemes (model p) !! Z.to_nat (selectScheme_currentIndex p) = Some R →
  let p' := copyRow p in
  schemes (model p') = schemes (model p) ++ [R] ∧
  rowCount (model p') = rowCount (model p) + 1 ∧
  (∀ col : Z, data (rowCount (model p') - 1) col (model p')
              = data (selectScheme_currentIndex p) col (model p)) ∧
  selectScheme_currentIndex p' = rowCount (model p') - 1 ∧
  mapper_currentIndex p' = rowCount (model p') - 1.
Proof.
  intros Hi HR p'.
  pose proof (lookup_lt_Some _ _ _ HR) as Hlt.
  assert (selectScheme_currentIndex p < rowCount (model p)) as Hcur.
  { unfold rowCount. lia. }
  pose proof (insertRow_copy _ _ _ Hi HR) as Hins.
  assert (rowCount (insertRow (selectScheme_currentIndex p) (model p))
          = rowCount (model p) + 1) as Hn.
  { rewrite Hins. unfold rowCount. simpl. rewrite length_app. simpl. lia. }
  destruct (select_appended _ p Hcur Hn) as (Hm & Hc & Hmap & _).
  assert (p' = selectScheme_setCurrentIndex
                 (rowCount (model (rowsInserted (rowCount (model p))
                    (with_model (insertRow (selectScheme_currentIndex p)
                                   (model p)) p))) - 1)
                 (rowsInserted (rowCount (model p))
                    (with_model (insertRow (selectScheme_currentIndex p)
                                   (model p)) p))) as Hp'.
  { unfold p', copyRow, model_insertRow.
    destruct (_ =? _) eqn:E; [zbool; lia|done]. }
  rewrite <- Hp' in Hm, Hc, Hmap. rewrite Hm, Hc, Hmap, Hn, Hins.
  split; [done|]. split; [done|]. split; [|lia].
  intros col. replace (rowCount (model p) + 1 - 1) with (rowCount (model p)) by lia.
  destruct (Z.leb_spec 0 col) as [Hcol|Hcol].
  - unfold rowCount at 1. rewrite data_last_row by done.
    unfold data. assert (validRow (selectScheme_currentIndex p) (model p) = true)
      as -> by (apply validRow_true; lia).
    apply Z.leb_le in Hcol as ->. simpl. by rewrite HR.
  - unfold data. apply Z.leb_gt in Hcol as ->. by rewrite !andb_false_r.
Qed.

Lemma copyRow_appends_copy_of_selected_witness :
  schemes (model (copyRow samplePage))
    = schemes (model samplePage) ++ [sampleRow sampleModel "MyScheme" 150] ∧
  selectScheme_currentIndex (copyRow samplePage) = 3.
Proof.
  destruct (copyRow_appends_copy_of_selected samplePage
              (sampleRow sampleModel "MyScheme" 150))
    as (H1 & _ & _ & H4 & _); [vm_compute; congruence|reflexivity|].
  split; [exact H1|exact H4].
Defined.

(** The scenario of the specification: two default rows and the custom
    row "MyScheme" with damage modifier 150; selecting it unlocks the
    controls, copying it gives a fourth row with damage modifier 150,
    which is then selected. *)
Example copyRow_scenario :
  rowCount (model samplePage) = 3 ∧
  widgetEnabled (SB SB_DamageModifier) samplePage = true ∧
  data 2 25 (model samplePage) = Some (VInt 150) ∧
  rowCount (model (step ClickCopy samplePage)) = 4 ∧
  data 3 25 (model (step ClickCopy samplePage)) = Some (VInt 150) ∧
  selectScheme_currentIndex (step ClickCopy samplePage) = 3.
Proof. repeat split. Qed.

(** C8: [newRow] appends one row whose every bound field holds its
    default (each numeric field the default of the parameter table,
    which is also the value its spin box is created with); the appended
    row becomes the selected row of the combo box and of the mapper,
    its index is >= numberOfDefaultSchemes and every field control is
    enabled. *)
Theorem newRow_appends_default_row (p : PageScheme.t) :
  selectScheme_currentIndex p < rowCount (model p) →
  numberOfDefaultSchemes (model p) ≤ rowCount (model p) →
  let p' := newRow p in
  let new := rowCount (model p) in
  schemes (model p') = schemes (model p) ++ [defaultScheme (model p)] ∧
  (∀ w : Widget, ∃ col : Z,
     mappedSection w = Some col ∧
     data new col (model p') = Some (defaultCell (model p) w)) ∧
  (∀ s : SpinBox, ∃ col : Z,
     mappedSection (SB s) = Some col ∧
     data new col (model p') = Some (VInt (doc_default (spec_table s))) ∧
     doc_default (spec_table s) = QSpinBox.value (construct s)) ∧
  selectScheme_currentIndex p' = new ∧
  mapper_currentIndex p' = new ∧
  new = rowCount (model p') - 1 ∧
  numberOfDefaultSchemes (model p') ≤ selectScheme_currentIndex p' ∧
  (∀ w : Widget, widgetEnabled w p' = true).
Proof.
  intros Hcur Hdef p' new.
  assert (rowCount (insertRow (-1) (model p)) = rowCount (model p) + 1) as Hn.
  { rewrite insertRow_new. unfold rowCount. simpl. rewrite length_app.
    simpl. lia. }
  destruct (select_appended _ p Hcur Hn) as (Hm & Hc & Hmap & Hen).
  assert (p' = selectScheme_setCurrentIndex
                 (rowCount (model (rowsInserted (rowCount (model p))
                    (with_model (insertRow (-1) (model p)) p))) - 1)
                 (rowsInserted (rowCount (model p))
                    (with_model (insertRow (-1) (model p)) p))) as Hp'.
  { unfold p', newRow, model_insertRow.
    destruct (_ =? _) eqn:E; [zbool; lia|done]. }
  rewrite <- Hp' in Hm, Hc, Hmap, Hen.
  assert (∀ w : Widget, ∃ col : Z, mappedSection w = Some col ∧
            data new col (model p') = Some (defaultCell (model p) w)) as Hcells.
  { intros w. destruct (mappedSection_total w) as [col Hcol].
    exists col. split; [done|].
    rewrite Hm, insertRow_new. unfold new, rowCount.
    rewrite data_last_row by (apply mappedSection_range in Hcol; lia).
    unfold defaultScheme. rewrite list_lookup_fmap.
    by rewrite (mappedSection_lookup _ _ Hcol). }
  split; [by rewrite Hm, insertRow_new|].
  split; [exact Hcells|].
  split.
  { intros s. destruct (Hcells (SB s)) as (col & H1 & H2).
    exists col. split; [done|]. split; [done|]. by destruct s. }
  split; [exact Hc|]. split; [exact Hmap|].
  split; [rewrite Hm, Hn; unfold new; lia|].
  split; [by rewrite Hm, Hc, numberOfDefaultSchemes_insertRow|].
  intros w. rewrite Hen, Z.geb_leb. apply Z.leb_le.
  by rewrite numberOfDefaultSchemes_insertRow.
Qed.

Lemma newRow_appends_default_row_witness :
  schemes (model (newRow samplePage))
    = schemes (model samplePage) ++ [defaultScheme sampleModel] ∧
  selectScheme_currentIndex (newRow samplePage) = 3 ∧
  widgetEnabled LE_name (newRow samplePage) = true.
Proof.
  destruct (newRow_appends_default_row samplePage)
    as (H1 & _ & _ & H4 & _ & _ & _ & H8);
    [vm_compute; congruence|vm_compute; congruence|].
  split; [exact H1|]. split; [exact H4|exact (H8 LE_name)].
Defined.

(** ** Editing the selected row *)

Lemma validRow_setData j row col v m :
  validRow j (setData row col v m) = validRow j m.
Proof. unfold validRow. by rewrite rowCount_setData. Qed.

(** What [setData] does to the cells when the row exists. *)
Lemma data_setData (m : AmmoSchemeModel.t) (row col : Z) (v : QVariant)
    (j k : Z) :
  0 ≤ row < rowCount m → 0 ≤ col →
  data j k (setData row col v m) =
  if bool_decide (j = row ∧ k = col)
  then (λ _, v) <$> data j k m
  else data j k m.
Proof.
  intros Hrow Hcol. unfold data. rewrite validRow_setData.
  destruct (validRow j m && (0 <=? k)) eqn:Hjk; [|by case_bool_decide].
  zbool. unfold setData.
  assert (validRow row m && (0 <=? col) = true) as ->.
  { apply andb_true_iff. split; [by apply validRow_true|by apply Z.leb_le]. }
  cbn [schemes with_schemes].
  destruct (decide (j = row)) as [->|Hj].
  - rewrite list_lookup_alter_eq.
    destruct (schemes m !! Z.to_nat row) as [r|]; cbn; [|by case_bool_decide].
    destruct (decide (k = col)) as [->|Hk].
    + rewrite bool_decide_eq_true_2 by done.
      destruct (decide (Z.to_nat col < length r)%nat) as [Hlt|Hge].
      * rewrite list_lookup_insert_eq by done.
        apply lookup_lt_is_Some in Hlt as [x ->]. done.
      * rewrite list_insert_ge by lia.
        rewrite (lookup_ge_None_2 r) by lia. done.
    + rewrite bool_decide_eq_false_2 by (intros []; done).
      apply list_lookup_insert_ne. lia.
  - rewrite bool_decide_eq_false_2 by (intros []; done).
    rewrite list_lookup_alter_ne by lia. done.
Qed.

(** C9: with an existing row past the default schemes selected, an edit
    of a bound control reaches the store at once, within the edit event
    itself: the cell of the selected row in the control's section takes
    the new value, every other cell of that row and every cell of every
    other row is as before, and the number of rows and the selection do
    not change. *)
Theorem edit_updates_selected_row_only
    (p : PageScheme.t) (w : Widget) (v : QVariant) (col : Z) :
  Inv p →
  0 ≤ selectScheme_currentIndex p →
  numberOfDefaultSchemes (model p) ≤ selectScheme_currentIndex p →
  mappedSection w = Some col →
  let i := selectScheme_currentIndex p in
  let p' := submit w v p in
  schemes (model p') =
    alter (λ r : Scheme, <[Z.to_nat col := v]> r) (Z.to_nat i)
          (schemes (model p)) ∧
  (∀ j k : Z, data j k (model p') =
     if bool_decide (j = i ∧ k = col)
     then (λ _, v) <$> data j k (model p)
     else data j k (model p)) ∧
  rowCount (model p') = rowCount (model p) ∧
  selectScheme_currentIndex p' = i.
Proof.
  intros [H1 H2 H3] Hi Hc Hcol i p'.
  pose proof (mappedSection_range _ _ Hcol) as Hrange.
  assert (p' = with_model (setData i col v (model p)) p) as ->.
  { unfold p', submit. rewrite (H3 Hi w), Hcol, (H2 Hi).
    rewrite Z.geb_leb. by apply Z.leb_le in Hc as ->. }
  cbn [model with_model selectScheme_currentIndex].
  split; [|split; [|split; [apply rowCount_setData|done]]].
  - unfold setData.
    assert (validRow i (model p) && (0 <=? col) = true) as ->; [|done].
    apply andb_true_iff. split; [apply validRow_true|apply Z.leb_le]; lia.
  - intros j k. apply data_setData; lia.
Qed.

Lemma edit_updates_selected_row_only_witness :
  data 2 25 (model (submit (SB SB_DamageModifier) (VInt 200) samplePage))
    = Some (VInt 200) ∧
  data 1 25 (model (submit (SB SB_DamageModifier) (VInt 200) samplePage))
    = Some (VInt 100).
Proof.
  destruct (edit_updates_selected_row_only samplePage (SB SB_DamageModifier)
              (VInt 200) 25) as (_ & H & _).
  - split; [vm_compute; split; congruence|reflexivity|].
    intros _ w. by destruct w.
  - vm_compute; congruence.
  - vm_compute; congruence.
  - reflexivity.
  - split; [exact (H 2 25)|exact (H 1 25)].
Defined.

(** ** The buttons *)

(** C10: [schemeSelected] changes nothing but the enabled state of the
    two group boxes and of the name field; the Copy, New and Delete
    buttons are enabled in every state the user can reach, so a click on
    them reaches [copyRow], [newRow], [deleteRow] whatever row is
    selected, a default row included. *)
Theorem buttons_stay_enabled :
  (∀ (n : Z) (p : PageScheme.t),
     buttons (schemeSelected n p) = buttons p ∧
     model (schemeSelected n p) = model p ∧
     selectScheme_currentIndex (schemeSelected n p)
       = selectScheme_currentIndex p ∧
     mapper_currentIndex (schemeSelected n p) = mapper_currentIndex p) ∧
  (∀ (m : AmmoSchemeModel.t) (es : list Event),
     let p := run es (setModel m) in
     BtnCopy_enabled p = true ∧ BtnNew_enabled p = true ∧
     BtnDelete_enabled p = true ∧
     step ClickCopy p = copyRow p ∧
     step ClickNew p = newRow p ∧
     ∀ answer, step (ClickDelete answer) p = deleteRow answer p).
Proof.
  split; [done|].
  intros m es p.
  assert (buttons p = (true, true, true)) as H.
  { unfold p. by rewrite buttons_run, buttons_setModel. }
  unfold buttons in H. injection H as Hc Hn Hd.
  cbn [step]. rewrite Hc, Hn, Hd. done.
Qed.

(** With default row 0 selected and its controls locked, Copy still
    appends a row. *)
Example copy_on_locked_row :
  let p := setModel sampleModel in
  selectScheme_currentIndex p = 0 ∧
  widgetEnabled LE_name p = false ∧
  rowCount (model (step ClickCopy p)) = 4.
Proof. vm_compute. done. Qed.

(** ** The bindings of the flag controls *)

(** C4 as stated fails: the page has 24 flag toggles, not 25, and
    section 25 belongs to the damage modifier spin box. *)
Lemma flag_controls_counterexample :
  length flagMappings ≠ 25%nat ∧
  length toggleButtons ≠ 25%nat ∧
  widgetOfSection 25 = Some (SB SB_DamageModifier).
Proof. vm_compute. repeat split; congruence. Qed.

(** C4 (amended): the page has exactly 24 flag toggles; [setModel] binds
    them, in the order in which the constructor creates them, to the 24
    consecutive sections 1..24, each toggle to a section of its own. *)
Theorem flag_controls_bound_in_order :
  length flagMappings = 24%nat ∧
  flagMappings = zip (TBW <$> toggleButtons) (seqZ 1 24) ∧
  (λ m : Widget * Z, m.2) <$> flagMappings = seqZ 1 24 ∧
  NoDup ((λ m : Widget * Z, m.1) <$> flagMappings) ∧
  (∀ b : ToggleButton, ∃ col : Z,
     mappedSection (TBW b) = Some col ∧ 1 ≤ col ≤ 24 ∧
     widgetOfSection col = Some (TBW b)).
Proof.
  split; [reflexivity|]. split; [reflexivity|]. split; [reflexivity|].
  split.
  - apply (bool_decide_unpack _). vm_compute. exact I.
  - intros b. destruct b; eexists; (split; [vm_compute; reflexivity|]);
      (split; [lia|vm_compute; reflexivity]).
Qed.

(** The 15 spin boxes are bound to the 15 sections 25..39 that follow
    the flags, each to a section of its own. *)
Lemma spin_controls_bound :
  length spinMappings = 15%nat ∧
  (λ m : Widget * Z, m.2) <$> spinMappings = seqZ 25 15 ∧
  (λ m : Widget * Z, m.1) <$> spinMappings ≡ₚ SB <$> spinBoxes.
Proof.
  split; [reflexivity|]. split; [reflexivity|].
  apply (bool_decide_unpack _). vm_compute. exact I.
Qed.

(** ** The numeric field controls *)

(** A spin box keeps its value within its range. *)
Lemma setValue_in_range (v : Z) (sb : QSpinBox.t) :
  QSpinBox.minimum sb ≤ QSpinBox.maximum sb →
  QSpinBox.minimum sb ≤ QSpinBox.value (QSpinBox.setValue v sb)
    ≤ QSpinBox.maximum sb.
Proof. unfold QSpinBox.setValue, QSpinBox.bound. cbn. lia. Qed.

Lemma stepBy_in_range (n : Z) (sb : QSpinBox.t) :
  QSpinBox.minimum sb ≤ QSpinBox.maximum sb →
  QSpinBox.minimum sb ≤ QSpinBox.value (QSpinBox.stepBy n sb)
    ≤ QSpinBox.maximum sb.
Proof. apply setValue_in_range. Qed.

(** The constructor's calls leave each spin box with the range, the
    value and the step of the table. *)
Lemma construct_table (s : SpinBox) :
  construct s =
  QSpinBox.mk (doc_min (spec_table s)) (doc_max (spec_table s))
              (doc_default (spec_table s)) (doc_step (spec_table s)).
Proof. by destruct s. Qed.

(** C7 as stated fails on the step granularity: the water rise control
    is created holding 47 with minimum 0 and step 5, and the damage
    modifier control accepts 11 with minimum 10 and step 25; neither
    value is a whole number of steps from the minimum. *)
Lemma step_granularity_counterexample :
  QSpinBox.minimum (construct SB_WaterRise) = 0 ∧
  QSpinBox.singleStep (construct SB_WaterRise) = 5 ∧
  QSpinBox.value (construct SB_WaterRise) = 47 ∧
  QSpinBox.onStepGrid (construct SB_WaterRise)
    (QSpinBox.value (construct SB_WaterRise)) = false ∧
  spinValue SB_DamageModifier 11 = 11 ∧
  QSpinBox.onStepGrid (construct SB_DamageModifier)
    (spinValue SB_DamageModifier 11) = false.
Proof. vm_compute. done. Qed.

(** C7 (amended): every numeric field control is created with exactly
    the minimum, maximum, single step and initial value of the parameter
    table; whatever is entered, the control holds (and submits) the
    entry clamped into [min, max], so no out-of-range value can be
    entered; the step is the amount one step up or down adds, from the
    current value and clamped likewise. *)
Theorem spin_boxes_match_table (s : SpinBox) :
  let sb := construct s in
  let d := spec_table s in
  QSpinBox.minimum sb = doc_min d ∧
  QSpinBox.maximum sb = doc_max d ∧
  QSpinBox.singleStep sb = doc_step d ∧
  QSpinBox.value sb = doc_default d ∧
  doc_min d ≤ doc_default d ≤ doc_max d ∧
  (∀ v : Z, doc_min d ≤ spinValue s v ≤ doc_max d) ∧
  (∀ v : Z, spinValue s v = Z.max (doc_min d) (Z.min (doc_max d) v)) ∧
  (∀ (v n : Z),
     QSpinBox.value (QSpinBox.stepBy n (QSpinBox.setValue v sb)) =
     Z.max (doc_min d) (Z.min (doc_max d) (spinValue s v + n * doc_step d))) ∧
  (∀ (v : Z) (p : PageScheme.t),
     step (EditSpin s v) p = submit (SB s) (VInt (spinValue s v)) p).
Proof.
  intros sb d. unfold sb, spinValue. rewrite construct_table. fold d.
  cbn [QSpinBox.minimum QSpinBox.maximum QSpinBox.singleStep QSpinBox.value
       QSpinBox.setValue QSpinBox.stepBy].
  unfold QSpinBox.bound.
  assert (doc_min d ≤ doc_default d ≤ doc_max d) by (by destruct s).
  repeat split; try done; try lia.
  intros v p. cbn [step]. unfold spinValue. rewrite construct_table. done.
Qed.

(** ** The default schemes never change *)

Lemma take_insertRow (n : nat) row m :
  Z.of_nat n ≤ rowCount m →
  take n (schemes (insertRow row m)) = take n (schemes m).
Proof.
  intros Hn. destruct (insertRow_cases row m) as [->|[r ->]]; [done|].
  cbn [schemes with_schemes]. apply take_app_le.
  unfold rowCount in Hn. lia.
Qed.

Lemma take_removeRow row m :
  take (Z.to_nat (numberOfDefaultSchemes m)) (schemes (removeRow row m))
  = take (Z.to_nat (numberOfDefaultSchemes m)) (schemes m).
Proof.
  destruct (rowCount_removeRow row m) as [->|(Hc & Hr & _)]; [done|].
  rewrite removeRow_custom by done. cbn [schemes with_schemes].
  unfold rowCount in Hr.
  rewrite delete_take_drop, take_app_le by (rewrite length_take; lia).
  rewrite take_take. f_equal. lia.
Qed.

Lemma take_setData (n : nat) row col v m :
  row < 0 ∨ Z.of_nat n ≤ row →
  take n (schemes (setData row col v m)) = take n (schemes m).
Proof.
  intros Hrow. unfold setData. case_match; [|done]. zbool.
  cbn [schemes with_schemes]. apply take_alter_ge. lia.
Qed.

Lemma EditLock_selected n p :
  EditLock (schemeSelected n (with_mapper n (with_current n p))).
Proof. intros w Hw. right. destruct w; cbn in *; zbool; lia. Qed.

Lemma EditLock_select n p :
  EditLock p → EditLock (selectScheme_setCurrentIndex n p).
Proof.
  intros HL.
  destruct (validRow n (model p)) eqn:Hv.
  - apply validRow_true in Hv.
    destruct (decide (n = selectScheme_currentIndex p)) as [He|Hne].
    + by rewrite select_same.
    + rewrite select_other by done. apply EditLock_selected.
  - unfold selectScheme_setCurrentIndex. cbv zeta. rewrite Hv.
    case_match; [done|].
    unfold currentIndexChanged, mapper_setCurrentIndex.
    cbn [model with_current].
    assert (validRow (-1) (model p) = false) as ->.
    { apply validRow_false. lia. }
    intros w Hw.
    assert (numberOfDefaultSchemes (model p) ≤ -1) as Hc.
    { destruct w; cbn in Hw; zbool; lia. }
    cbn. lia.
Qed.

Lemma EditLock_with_model m' p :
  EditLock p →
  numberOfDefaultSchemes m' = numberOfDefaultSchemes (model p) →
  EditLock (with_model m' p).
Proof.
  intros HL Hc w Hw. cbn [model with_model mapper_currentIndex].
  rewrite Hc. apply (HL w). by destruct w.
Qed.

Lemma EditLock_model_insertRow row p :
  EditLock p → EditLock (model_insertRow row p).
Proof.
  intros HL. unfold model_insertRow. cbv zeta. case_match; [done|].
  unfold rowsInserted.
  assert (EditLock (with_model (insertRow row (model p)) p)).
  { apply EditLock_with_model; [done|apply numberOfDefaultSchemes_insertRow]. }
  case_match; [by apply EditLock_select|done].
Qed.

Lemma EditLock_deleteRow answer p :
  Inv p → EditLock p → EditLock (deleteRow answer p).
Proof.
  intros HI HL. unfold deleteRow. case_decide; [|done].
  unfold model_removeRow. cbv zeta. case_match; [done|].
  set (r := selectScheme_currentIndex p) in *.
  destruct (rowCount_removeRow r (model p)) as [E|(Hc & Hr & Hn)].
  { rewrite E in *. zbool. lia. }
  assert (mapper_currentIndex p = r) as Hm by (apply HI; lia).
  unfold rowsRemoved. cbv zeta.
  cbn [selectScheme_currentIndex with_mapper with_current with_model
       mapper_currentIndex model]. fold r. rewrite Hm.
  assert (shiftIndex r r = -1) as Hs.
  { unfold shiftIndex. by rewrite Z.eqb_refl. }
  rewrite Hs. destruct (-1 =? r) eqn:E; [zbool; lia|].
  case_match.
  - apply EditLock_select. intros w _. cbn. lia.
  - unfold currentIndexChanged, mapper_setCurrentIndex.
    case_match; [zbool; cbn in *; lia|].
    intros w _. cbn. lia.
Qed.

Lemma EditLock_submit w v p : EditLock p → EditLock (submit w v p).
Proof.
  intros HL. unfold submit. repeat case_match; try done.
  apply EditLock_with_model; [done|apply numberOfDefaultSchemes_setData].
Qed.

Lemma EditLock_step e p : Inv p → EditLock p → EditLock (step e p).
Proof.
  intros HI HL. destruct e; cbn [step]; repeat case_match; try done;
    unfold newRow, copyRow; cbv zeta;
    auto using EditLock_select, EditLock_model_insertRow,
      EditLock_deleteRow, EditLock_submit.
Qed.

Lemma EditLock_setModel m : EditLock (setModel m).
Proof.
  unfold setModel. cbv zeta.
  set (p0 := PageScheme.mk _ _ _ _ _ _ _ _ _).
  destruct (validRow 0 m) eqn:Hv.
  - pose proof Hv as Hv'. apply validRow_true in Hv'.
    rewrite (select_other 0 p0) by (cbn; lia).
    unfold mapper_setCurrentIndex. cbn [model schemeSelected with_mapper
      with_current p0].
    rewrite Hv. intros w Hw. right. destruct w; cbn in *; zbool; lia.
  - unfold selectScheme_setCurrentIndex, mapper_setCurrentIndex. cbv zeta.
    cbn [model p0 selectScheme_currentIndex]. rewrite Hv. cbn [Z.eqb Pos.eqb].
    cbn [model p0]. rewrite Hv. intros w _. cbn. lia.
Qed.

Lemma defaultRows_step e p :
  EditLock p → DefaultsPresent p → defaultRows (step e p) = defaultRows p.
Proof.
  intros HL HD. unfold defaultRows. rewrite numberOfDefaultSchemes_step.
  unfold DefaultsPresent in HD.
  pose proof (rowCount_nonneg (model p)).
  destruct e; cbn [step]; repeat case_match; try done;
    unfold newRow, copyRow, deleteRow, submit in *; cbv zeta;
    repeat case_match; try done;
    rewrite ?model_selectScheme_setCurrentIndex, ?model_model_insertRow,
      ?model_model_removeRow; cbn [model with_model]; try done.
  - apply take_insertRow. lia.
  - apply take_insertRow. lia.
  - apply take_removeRow.
  - apply take_setData. destruct (HL LE_name) as [?|?]; [done|lia..].
  - apply take_setData. destruct (HL (TBW b)) as [?|?]; [done|lia..].
  - apply take_setData. destruct (HL (SB s)) as [?|?]; [done|lia..].
Qed.

(** X8: whatever the user does on the page (select, New, Copy, Delete
    with either answer, edits), the rows of the default schemes stay in
    the table exactly as [setModel] received them, cell for cell. *)
Lemma default_rows_never_change m es :
  numberOfDefaultSchemes m ≤ rowCount m →
  defaultRows (run es (setModel m))
  = take (Z.to_nat (numberOfDefaultSchemes m)) (schemes m).
Proof.
  intros Hm.
  assert (defaultRows (setModel m)
          = take (Z.to_nat (numberOfDefaultSchemes m)) (schemes m)) as <-.
  { unfold defaultRows, setModel. cbv zeta.
    by rewrite model_mapper_setCurrentIndex,
      model_selectScheme_setCurrentIndex. }
  pose proof (Inv_setModel m) as HI.
  pose proof (EditLock_setModel m) as HL.
  pose proof (DefaultsPresent_reachable m [] Hm) as HD. cbn in HD.
  revert HI HL HD. generalize (setModel m).
  induction es as [|e es IH]; intros p HI HL HD; [done|].
  cbn [run fold_left]. fold (run es (step e p)).
  rewrite IH; auto using Inv_step, EditLock_step, DefaultsPresent_step.
  by apply defaultRows_step.
Qed.

(** * Further properties of the page *)

(** ** Bindings and layout *)

Lemma mappings_bound_pairs :
  Forall (λ m : Widget * Z, mappedSection m.1 = Some m.2) mappings.
Proof. apply (bool_decide_unpack _). vm_compute. exact I. Qed.

Lemma mapped_widgetOfSection w col :
  mappedSection w = Some col → widgetOfSection col = Some w.
Proof.
  intros H.
  destruct w as [|b|s]; [|destruct b|destruct s];
    vm_compute in H; injection H as <-; vm_compute; reflexivity.
Qed.

Lemma widgetOfSection_elem col w :
  widgetOfSection col = Some w → (w, col) ∈ mappings.
Proof.
  unfold widgetOfSection. intros H.
  destruct (head (filter (λ m : Widget * Z, m.2 = col) mappings))
    as [[w' c']|] eqn:E; [|done].
  injection H as <-. apply head_Some_elem_of in E.
  apply list_elem_of_filter in E as [Hc Hin]. cbn in Hc. by subst.
Qed.

Lemma widgetOfSection_None col :
  widgetOfSection col = None → col < 0 ∨ 40 ≤ col.
Proof.
  unfold widgetOfSection. intros H.
  destruct (head (filter (λ m : Widget * Z, m.2 = col) mappings))
    as [?|] eqn:E; [done|].
  apply head_None in E.
  destruct (decide (0 ≤ col < 40)) as [Hin|]; [|lia].
  assert (col ∈ (λ m : Widget * Z, m.2) <$> mappings) as Hcol.
  { rewrite mappings_sections. apply elem_of_seqZ. lia. }
  apply list_elem_of_fmap in Hcol as ([w c] & -> & Hm).
  by apply (filter_nil_not_elem_of _ _ (w, c) E) in Hm.
Qed.

(** X1: [setModel] binds the controls and the sections 0..39 one to
    one: the sections bound are exactly 0, 1, ..., 39 in binding order;
    every field control has one section, which leads back to it; and a
    section leads to a control exactly when it is one of 0..39, to the
    control that is bound to it. *)
Theorem bindings_one_to_one :
  (λ m : Widget * Z, m.2) <$> mappings = seqZ 0 40 ∧
  (∀ w : Widget, ∃ col : Z,
     mappedSection w = Some col ∧ 0 ≤ col < 40 ∧
     widgetOfSection col = Some w) ∧
  (∀ col : Z,
     match widgetOfSection col with
     | Some w => mappedSection w = Some col ∧ 0 ≤ col < 40
     | None => col < 0 ∨ 40 ≤ col
     end).
Proof.
  split; [reflexivity|]. split.
  - intros w. destruct (mappedSection_total w) as [col Hcol].
    exists col. split; [done|].
    split; [by apply mappedSection_range in Hcol|].
    by apply mapped_widgetOfSection.
  - intros col. destruct (widgetOfSection col) as [w|] eqn:E.
    + apply widgetOfSection_elem in E.
      pose proof (proj1 (Forall_forall _ _) mappings_bound_pairs _ E) as H.
      cbn in H. split; [done|]. by apply mappedSection_range in H.
    + by apply widgetOfSection_None.
Qed.

(** X2: the constructor lays the 24 toggles out in a grid five wide, in
    reading order with no cell used twice, and [setModel] numbers them
    the same way: the toggle in row r, column c is bound to section
    5 r + c + 1. The 15 spin boxes take column 2 of the rows 0..14 of
    their own grid, one row each, in creation order. *)
Theorem layout_follows_bindings :
  (∀ b : ToggleButton,
     0 ≤ (gridCell b).1 ≤ 4 ∧ 0 ≤ (gridCell b).2 ≤ 4 ∧
     mappedSection (TBW b)
       = Some (5 * (gridCell b).1 + (gridCell b).2 + 1) ∧
     b ∈ toggleButtons) ∧
  gridCell <$> toggleButtons
    = (λ k : Z, (k `div` 5, k `mod` 5)) <$> seqZ 0 24 ∧
  NoDup (gridCell <$> toggleButtons) ∧
  (∀ s : SpinBox, s ∈ spinBoxes) ∧
  settingsCell <$> spinBoxes = (λ k : Z, (k, 2)) <$> seqZ 0 15 ∧
  NoDup (settingsCell <$> spinBoxes).
Proof.
  split.
  { intros b. destruct b; cbn [gridCell fst snd];
      (split; [lia|]); (split; [lia|]);
      (split; [vm_compute; reflexivity|]);
      apply (bool_decide_unpack _); vm_compute; exact I. }
  split; [reflexivity|].
  split; [apply (bool_decide_unpack _); vm_compute; exact I|].
  split.
  { intros s. destruct s; apply (bool_decide_unpack _); vm_compute; exact I. }
  split; [reflexivity|].
  apply (bool_decide_unpack _); vm_compute; exact I.
Qed.

(** ** Locks *)

Lemma LocksAgree_schemeSelected n p : LocksAgree (schemeSelected n p).
Proof. by split. Qed.

Lemma LocksAgree_currentIndexChanged n p :
  LocksAgree (currentIndexChanged n p).
Proof. apply LocksAgree_schemeSelected. Qed.

Lemma LocksAgree_select n p :
  LocksAgree p → LocksAgree (selectScheme_setCurrentIndex n p).
Proof.
  intros H. unfold selectScheme_setCurrentIndex. cbv zeta.
  case_match; [done|apply LocksAgree_currentIndexChanged].
Qed.

Lemma LocksAgree_model_insertRow row p :
  LocksAgree p → LocksAgree (model_insertRow row p).
Proof.
  intros H. unfold model_insertRow, rowsInserted. cbv zeta.
  repeat case_match; try done. by apply LocksAgree_select.
Qed.

Lemma LocksAgree_model_removeRow row p :
  LocksAgree p → LocksAgree (model_removeRow row p).
Proof.
  intros H. unfold model_removeRow, rowsRemoved. cbv zeta.
  repeat case_match; try done;
    auto using LocksAgree_select, LocksAgree_currentIndexChanged.
Qed.

Lemma LocksAgree_step e p : LocksAgree p → LocksAgree (step e p).
Proof.
  intros H. destruct e; cbn [step];
    unfold newRow, copyRow, deleteRow, submit; cbv zeta;
    repeat case_match; try done;
    auto using LocksAgree_select, LocksAgree_model_insertRow,
      LocksAgree_model_removeRow.
Qed.

Lemma LocksAgree_setModel m : LocksAgree (setModel m).
Proof.
  unfold setModel, mapper_setCurrentIndex. cbv zeta.
  assert (∀ p, LocksAgree p → LocksAgree (with_mapper 0 p)) as Hm by done.
  case_match; [apply Hm|]; by apply LocksAgree_select.
Qed.

(** X3: in every state the user can reach, the game-modifier group, the
    basic-settings group and the name field are enabled together or
    disabled together; no sequence of events unlocks one without the
    others. *)
Theorem locks_agree_reachable :
  ∀ (m : AmmoSchemeModel.t) (es : list Event),
    let p := run es (setModel m) in
    gbGameModes_enabled p = gbBasicSettings_enabled p ∧
    gbBasicSettings_enabled p = LE_name_enabled p ∧
    ∀ w1 w2 : Widget, widgetEnabled w1 p = widgetEnabled w2 p.
Proof.
  intros m es p.
  assert (LocksAgree p) as [H1 H2].
  { unfold p. generalize (LocksAgree_setModel m). generalize (setModel m).
    induction es as [|e es IH]; intros q Hq; [done|].
    cbn [run fold_left]. fold (run es (step e q)).
    by apply IH, LocksAgree_step. }
  split; [done|]. split; [done|].
  intros [] []; cbn; congruence.
Qed.

(** X4: while a default row is selected, no edit of a field control
    changes anything: the page, and with it every cell of the table,
    is the same after a name edit, a toggle or a number entry. *)
Theorem locked_row_ignores_edits (p : PageScheme.t) :
  Inv p →
  0 ≤ selectScheme_currentIndex p →
  selectScheme_currentIndex p < numberOfDefaultSchemes (model p) →
  (∀ (w : Widget) (v : QVariant), submit w v p = p) ∧
  (∀ s : string, step (EditName s) p = p) ∧
  (∀ (b : ToggleButton) (checked : bool), step (Toggle b checked) p = p) ∧
  (∀ (s : SpinBox) (v : Z), step (EditSpin s v) p = p).
Proof.
  intros [_ _ H3] Hi Hc.
  assert (∀ (w : Widget) (v : QVariant), submit w v p = p) as H.
  { intros w v. unfold submit. rewrite (H3 Hi w), Z.geb_leb.
    by apply Z.leb_gt in Hc as ->. }
  repeat split; intros; cbn [step]; apply H.
Qed.

Lemma locked_row_ignores_edits_witness :
  step (EditSpin SB_DamageModifier 200) (setModel sampleModel)
  = setModel sampleModel.
Proof.
  destruct (locked_row_ignores_edits (setModel sampleModel))
    as (_ & _ & _ & H).
  - split; [vm_compute; split; congruence|reflexivity|].
    intros _ w. by destruct w.
  - vm_compute; congruence.
  - reflexivity.
  - apply H.
Defined.

(** X5: in every state the user can reach, the combo box points at an
    existing row or at none (-1), and whenever it points at a row the
    mapper points at the same row, so the controls show and edit the
    row that is selected. *)
Theorem mapper_follows_selection :
  ∀ (m : AmmoSchemeModel.t) (es : list Event),
    let p := run es (setModel m) in
    -1 ≤ selectScheme_currentIndex p < rowCount (model p) ∧
    (selectScheme_currentIndex p = -1 ∨
     mapper_currentIndex p = selectScheme_currentIndex p).
Proof.
  intros m es p. destruct (Inv_reachable m es) as [H1 H2 _].
  fold p in H1, H2. split; [done|].
  destruct (decide (selectScheme_currentIndex p = -1)); [by left|].
  right. apply H2. lia.
Qed.

(** X6: with no row selected, Copy does what New does: [copyRow] passes
    the current index -1 to insertRow, which is the call [newRow]
    makes, and then selects the last row as [newRow] does; so with the
    buttons enabled a click on Copy and a click on New have the same
    effect. *)
Theorem copyRow_without_selection_is_newRow (p : PageScheme.t) :
  selectScheme_currentIndex p = -1 →
  buttons p = (true, true, true) →
  copyRow p = newRow p ∧ step ClickCopy p = step ClickNew p.
Proof.
  intros H Hb.
  assert (copyRow p = newRow p) as E.
  { unfold copyRow, newRow. by rewrite H. }
  split; [done|]. unfold buttons in Hb. injection Hb as Hc Hn _.
  cbn [step]. by rewrite Hc, Hn, E.
Qed.

Lemma copyRow_without_selection_is_newRow_witness :
  step ClickCopy (setModel emptyModel) = step ClickNew (setModel emptyModel).
Proof.
  destruct (copyRow_without_selection_is_newRow (setModel emptyModel))
    as [_ H]; [reflexivity|reflexivity|exact H].
Defined.

(** ** Appending and deleting *)

Lemma default_rows_never_change_witness :
  defaultRows (run [ClickNew; EditName "mine"; ClickDelete Ok;
                    SelectScheme 2; ClickDelete Ok; ClickDelete Ok]
                   (setModel sampleModel))
  = take 2 (schemes sampleModel).
Proof.
  apply (default_rows_never_change sampleModel). vm_compute. congruence.
Defined.

Lemma model_insertRow_appended row p :
  rowCount (insertRow row (model p)) = rowCount (model p) + 1 →
  model_insertRow row p =
  rowsInserted (rowCount (model p)) (with_model (insertRow row (model p)) p).
Proof.
  intros H. unfold model_insertRow. cbv zeta.
  destruct (_ =? _) eqn:E; [zbool; lia|done].
Qed.

(** Deleting the row that was just appended and selected gives the rows
    back. *)
Lemma append_select_delete (m' : AmmoSchemeModel.t) (r : Scheme)
    (p : PageScheme.t) :
  selectScheme_currentIndex p < rowCount (model p) →
  numberOfDefaultSchemes (model p) ≤ rowCount (model p) →
  m' = with_schemes (schemes (model p) ++ [r]) (model p) →
  let p1 := rowsInserted (rowCount (model p)) (with_model m' p) in
  let p' := selectScheme_setCurrentIndex (rowCount (model p1) - 1) p1 in
  schemes (model (deleteRow Ok p')) = schemes (model p).
Proof.
  intros Hcur Hdef Hm' p1 p'.
  pose proof (rowCount_nonneg (model p)) as Hnn.
  assert (rowCount m' = rowCount (model p) + 1) as Hn.
  { rewrite Hm'. unfold rowCount. cbn [schemes with_schemes].
    rewrite length_app. cbn [length]. lia. }
  destruct (select_appended m' p Hcur Hn) as (Hm & Hc & _).
  fold p1 in Hm, Hc. fold p' in Hm, Hc.
  unfold deleteRow. cbn [decide decide_rel StandardButton_eq_dec].
  destruct (decide (Ok = Ok)) as [_|]; [|done].
  rewrite model_model_removeRow, Hm, Hc.
  rewrite removeRow_custom.
  - rewrite Hm'. cbn [schemes with_schemes]. unfold rowCount.
    rewrite Nat2Z.id, delete_middle. apply app_nil_r.
  - by rewrite Hm'.
  - lia.
Qed.

(** X7: New followed by a confirmed Delete, and Copy followed by a
    confirmed Delete, give back the rows the table had: the row that
    was appended is the selected one, it is past the default schemes,
    and it is the row the delete removes. *)
Theorem append_then_delete_restores_rows (p : PageScheme.t) :
  -1 ≤ selectScheme_currentIndex p < rowCount (model p) →
  numberOfDefaultSchemes (model p) ≤ rowCount (model p) →
  schemes (model (deleteRow Ok (newRow p))) = schemes (model p) ∧
  schemes (model (deleteRow Ok (copyRow p))) = schemes (model p).
Proof.
  intros Hcur Hdef.
  assert (schemes (model (deleteRow Ok (newRow p))) = schemes (model p))
    as Hnew.
  { unfold newRow. cbv zeta. rewrite model_insertRow_appended.
    - apply (append_select_delete _ (defaultScheme (model p)));
        [lia|done|apply insertRow_new].
    - rewrite insertRow_new. unfold rowCount. cbn [schemes with_schemes].
      rewrite length_app. cbn [length]. lia. }
  split; [done|].
  destruct (decide (selectScheme_currentIndex p = -1)) as [E|Hne].
  { assert (copyRow p = newRow p) as ->; [|done].
    unfold copyRow, newRow. by rewrite E. }
  assert (is_Some (schemes (model p)
                     !! Z.to_nat (selectScheme_currentIndex p))) as [R HR].
  { apply lookup_lt_is_Some. unfold rowCount in Hcur. lia. }
  assert (insertRow (selectScheme_currentIndex p) (model p)
          = with_schemes (schemes (model p) ++ [R]) (model p)) as Hins.
  { apply insertRow_copy; [lia|done]. }
  unfold copyRow. cbv zeta. rewrite model_insertRow_appended.
  - apply (append_select_delete _ R); [lia|done|done].
  - rewrite Hins. unfold rowCount. cbn [schemes with_schemes].
    rewrite length_app. cbn [length]. lia.
Qed.

Lemma append_then_delete_restores_rows_witness :
  schemes (model (deleteRow Ok (newRow samplePage)))
    = schemes (model samplePage) ∧
  schemes (model (deleteRow Ok (copyRow samplePage)))
    = schemes (model samplePage).
Proof.
  apply (append_then_delete_restores_rows samplePage).
  - vm_compute. split; congruence.
  - vm_compute. congruence.
Defined.

(** ** The page after setModel *)

(** X9: what [setModel] leaves. On a table with rows, row 0 is selected
    in the combo box and in the mapper, and the controls are enabled
    exactly when there is no default scheme (row 0 is past the defaults).
    On a table without rows nothing is selected, the controls stay
    enabled as the constructor made them, and an edit of any control
    changes nothing, as the mapper has no row to write to. *)
Theorem setModel_initial_state (m : AmmoSchemeModel.t) :
  model (setModel m) = m ∧
  if bool_decide (0 < rowCount m) then
    selectScheme_currentIndex (setModel m) = 0 ∧
    mapper_currentIndex (setModel m) = 0 ∧
    ∀ w : Widget,
      widgetEnabled w (setModel m)
      = bool_decide (numberOfDefaultSchemes m ≤ 0)
  else
    selectScheme_currentIndex (setModel m) = -1 ∧
    mapper_currentIndex (setModel m) = -1 ∧
    (∀ w : Widget, widgetEnabled w (setModel m) = true) ∧
    (∀ (w : Widget) (v : QVariant), submit w v (setModel m) = setModel m).
Proof.
  split.
  { unfold setModel. cbv zeta.
    by rewrite model_mapper_setCurrentIndex,
      model_selectScheme_setCurrentIndex. }
  unfold setModel. cbv zeta.
  set (p0 := PageScheme.mk _ _ _ _ _ _ _ _ _).
  pose proof (rowCount_nonneg m) as Hnn.
  case_bool_decide as Hrows.
  - rewrite (select_other 0 p0) by (cbn; lia).
    unfold mapper_setCurrentIndex.
    cbn [model schemeSelected with_mapper with_current p0].
    assert (validRow 0 m = true) as -> by (apply validRow_true; lia).
    split; [reflexivity|]. split; [reflexivity|].
    intros w. transitivity (0 >=? numberOfDefaultSchemes m);
      [by destruct w|].
    rewrite Z.geb_leb.
    destruct (Z.leb_spec (numberOfDefaultSchemes m) 0); symmetry;
      [apply bool_decide_eq_true_2|apply bool_decide_eq_false_2]; lia.
  - assert (validRow 0 m = false) as Hv by (apply validRow_false; lia).
    unfold selectScheme_setCurrentIndex, mapper_setCurrentIndex. cbv zeta.
    cbn [model p0 selectScheme_currentIndex]. rewrite Hv.
    cbn [Z.eqb Pos.eqb]. cbn [model p0]. rewrite Hv.
    split; [done|]. split; [done|]. split; [by intros []|].
    intros w v. unfold submit.
    assert (widgetEnabled w p0 = true) as -> by by destruct w.
    destruct (mappedSection w) as [col|]; [|done].
    unfold setData. cbn [model p0 mapper_currentIndex].
    assert (validRow (-1) m = false) as -> by (apply validRow_false; lia).
    done.
Qed.

(** ** Numbers stay within the range of their control *)

Lemma tableInRange_Forall m :
  tableInRange m = true ↔ Forall (λ r, rowInRange r = true) (schemes m).
Proof.
  unfold tableInRange. rewrite forallb_forall, Forall_forall.
  split; intros H r Hr; apply H; by apply list_elem_of_In.
Qed.

Lemma rowInRange_cells r :
  rowInRange r = true ↔ ∀ s, cellInRange s r = true.
Proof.
  unfold rowInRange. rewrite forallb_forall. split.
  - intros H s. apply H. destruct s; vm_compute; tauto.
  - intros H s _. apply H.
Qed.

Lemma rowInRange_defaultScheme m : rowInRange (defaultScheme m) = true.
Proof.
  apply rowInRange_cells. intros s. unfold cellInRange.
  destruct (mappedSection (SB s)) as [col|] eqn:Hcol; [|done].
  unfold defaultScheme. rewrite list_lookup_fmap.
  rewrite (mappedSection_lookup _ _ Hcol). cbn [fmap option_fmap option_map
    fst defaultCell].
  by destruct s.
Qed.

Lemma construct_range s :
  QSpinBox.minimum (construct s) ≤ QSpinBox.maximum (construct s).
Proof. rewrite construct_table. cbn. destruct s; cbn; lia. Qed.

(** Writing to the section of a control keeps a row in range, provided
    a number written to a spin box's section is in that box's range. *)
Lemma rowInRange_insert (w : Widget) (col : Z) (v : QVariant) (r : Scheme) :
  mappedSection w = Some col →
  (∀ s x, w = SB s → v = VInt x →
          QSpinBox.minimum (construct s) ≤ x ≤ QSpinBox.maximum (construct s)) →
  rowInRange r = true →
  rowInRange (<[Z.to_nat col := v]> r) = true.
Proof.
  intros Hw Hv. rewrite !rowInRange_cells. intros H s.
  specialize (H s). unfold cellInRange in *.
  destruct (mappedSection (SB s)) as [cs|] eqn:Hs; [|done].
  pose proof (mappedSection_range _ _ Hs).
  pose proof (mappedSection_range _ _ Hw).
  destruct (decide (cs = col)) as [->|Hne].
  - assert (w = SB s) as Hws.
    { apply mapped_widgetOfSection in Hs, Hw. congruence. }
    destruct (decide (Z.to_nat col < length r)%nat) as [Hlt|Hge].
    + rewrite list_lookup_insert_eq by done.
      destruct v as [| |x]; [done..|].
      destruct (Hv s x Hws eq_refl).
      apply andb_true_iff. split; by apply Z.leb_le.
    + by rewrite list_insert_ge by lia.
  - by rewrite list_lookup_insert_ne by lia.
Qed.

Lemma tableInRange_insertRow row m :
  tableInRange m = true → tableInRange (insertRow row m) = true.
Proof.
  rewrite !tableInRange_Forall. intros H. unfold insertRow.
  repeat case_match; try done; cbn [schemes with_schemes];
    apply Forall_app; (split; [done|]); apply Forall_singleton.
  - apply rowInRange_defaultScheme.
  - match goal with
    | Hl : _ !! _ = Some ?r |- _ =>
        exact (Forall_lookup_1 (λ r, rowInRange r = true) _ _ _ H Hl)
    end.
Qed.

Lemma tableInRange_removeRow row m :
  tableInRange m = true → tableInRange (removeRow row m) = true.
Proof.
  rewrite !tableInRange_Forall. intros H. unfold removeRow.
  case_match; [done|]. by apply Forall_delete.
Qed.

Lemma tableInRange_submit w v p :
  (∀ s x, w = SB s → v = VInt x →
          QSpinBox.minimum (construct s) ≤ x ≤ QSpinBox.maximum (construct s)) →
  tableInRange (model p) = true →
  tableInRange (model (submit w v p)) = true.
Proof.
  intros Hv H. unfold submit.
  destruct (widgetEnabled w p); [|done].
  destruct (mappedSection w) as [col|] eqn:Hw; [|done].
  cbn [model with_model]. unfold setData. case_match; [|done].
  apply tableInRange_Forall. cbn [schemes with_schemes].
  apply tableInRange_Forall in H.
  apply Forall_alter; [done|]. intros r _ Hr.
  by apply (rowInRange_insert w).
Qed.

Lemma tableInRange_step e p :
  tableInRange (model p) = true → tableInRange (model (step e p)) = true.
Proof.
  intros H. destruct e; cbn [step].
  - by rewrite model_selectScheme_setCurrentIndex.
  - case_match; [|done]. unfold newRow. cbv zeta.
    rewrite model_selectScheme_setCurrentIndex, model_model_insertRow.
    by apply tableInRange_insertRow.
  - case_match; [|done]. unfold copyRow. cbv zeta.
    rewrite model_selectScheme_setCurrentIndex, model_model_insertRow.
    by apply tableInRange_insertRow.
  - case_match; [|done]. unfold deleteRow. case_decide; [|done].
    rewrite model_model_removeRow. by apply tableInRange_removeRow.
  - apply tableInRange_submit; [|done]. by intros.
  - apply tableInRange_submit; [|done]. by intros.
  - apply tableInRange_submit; [|done].
    intros s' x [= <-] [= <-]. unfold spinValue.
    pose proof (setValue_in_range v (construct s) (construct_range s)) as Hr.
    unfold QSpinBox.setValue in Hr |- *. cbn in Hr |- *. exact Hr.
Qed.

(** X10: the editor never brings an out-of-range number into the table:
    if every number of the table [setModel] receives is within the
    range the constructor gave the spin box of its section, then so is
    every number of the table after any sequence of selections, New,
    Copy, Delete and edits. *)
Theorem numbers_stay_in_range (m : AmmoSchemeModel.t) (es : list Event) :
  tableInRange m = true →
  tableInRange (model (run es (setModel m))) = true.
Proof.
  intros Hm.
  assert (tableInRange (model (setModel m)) = true) as H0.
  { unfold setModel. cbv zeta.
    by rewrite model_mapper_setCurrentIndex,
      model_selectScheme_setCurrentIndex. }
  revert H0. generalize (setModel m).
  induction es as [|e es IH]; intros p Hp; [done|].
  cbn [run fold_left]. fold (run es (step e p)).
  by apply IH, tableInRange_step.
Qed.

Lemma numbers_stay_in_range_witness :
  tableInRange
    (model (run [SelectScheme 2; EditSpin SB_DamageModifier 5000;
                 ClickCopy; EditSpin SB_MinesTime (-7); ClickNew]
                (setModel sampleModel))) = true.
Proof.
  apply (numbers_stay_in_range sampleModel). vm_compute. reflexivity.
Defined.

(** What the entries of the run above leave in the table: 5000 is held
    as 300 in the damage modifier of the custom row, -7 as -1 in the
    mines time of its copy. *)
Example clamped_entries_reach_the_table :
  let p := run [SelectScheme 2; EditSpin SB_DamageModifier 5000;
                ClickCopy; EditSpin SB_MinesTime (-7); ClickNew]
               (setModel sampleModel) in
  data 2 25 (model p) = Some (VInt 300) ∧
  data 3 25 (model p) = Some (VInt 300) ∧
  data 3 30 (model p) = Some (VInt (-1)) ∧
  data 2 30 (model p) = Some (VInt 3) ∧
  rowCount (model p) = 5.
Proof. vm_compute. done. Qed.

(** ** What an event can do to the number of rows *)

(** X11: selecting a scheme never touches the table, whatever the index;
    an edit never adds or removes a row; a click on New or Copy adds at
    most one row and removes none; a click on Delete removes at most one
    row and adds none. *)
Theorem row_count_changes_only_by_buttons (e : Event) (p : PageScheme.t) :
  match e with
  | SelectScheme _ => model (step e p) = model p
  | EditName _ | Toggle _ _ | EditSpin _ _ =>
      rowCount (model (step e p)) = rowCount (model p)
  | ClickNew | ClickCopy =>
      rowCount (model p) ≤ rowCount (model (step e p))
        ≤ rowCount (model p) + 1
  | ClickDelete _ =>
      rowCount (model p) - 1 ≤ rowCount (model (step e p))
        ≤ rowCount (model p)
  end.
Proof.
  assert (∀ w v, rowCount (model (submit w v p)) = rowCount (model p)) as Hs.
  { intros w v. unfold submit. repeat case_match; try done.
    cbn [model with_model]. apply rowCount_setData. }
  destruct e; cbn [step]; try apply Hs.
  - apply model_selectScheme_setCurrentIndex.
  - case_match; [|lia]. unfold newRow. cbv zeta.
    rewrite model_selectScheme_setCurrentIndex, model_model_insertRow.
    destruct (rowCount_insertRow (-1) (model p)); lia.
  - case_match; [|lia]. unfold copyRow. cbv zeta.
    rewrite model_selectScheme_setCurrentIndex, model_model_insertRow.
    destruct (rowCount_insertRow (selectScheme_currentIndex p) (model p)); lia.
  - case_match; [|lia]. unfold deleteRow. case_decide; [|lia].
    rewrite model_model_removeRow.
    destruct (rowCount_removeRow (selectScheme_currentIndex p) (model p))
      as [->|(_ & _ & ->)]; lia.
Qed.
